(** * High Quality Momentum scanner: scoring, filtering and sizing pipeline

    A shallow embedding of [momentum.py], [database.py] and the request
    validation of [app.py].

    Conventions of the embedding.
    - A pandas DataFrame is the list of its rows, in index order; a column is
      a projection of the row record.
    - Python and numpy floats are modelled by exact rationals [Q]; a missing
      value (NaN, NULL, None) is [None] of an [option Q].  Equalities between
      computed figures are therefore stated with [==] on [Q].
    - The external collaborators (the pandas sorting routine behind
      [sort_values], the [yf.download] price service) are parameters of the
      functions that call them. *)

From Stdlib Require Import String List ZArith QArith Qround Qabs Lia Lqa Bool.
From Stdlib Require Import Qminmax Sorted Permutation.
From Stdlib Require Import DecimalString.
Import ListNotations.
Open Scope Q_scope.

(** ** Numeric helpers of pandas, numpy and scipy *)

(** [Series.dropna()]: the defined values, in order. *)
Fixpoint dropna (xs : list (option Q)) : list Q :=
  match xs with
  | [] => []
  | Some x :: r => x :: dropna r
  | None :: r => dropna r
  end.

(** [Series.sum()]. *)
Fixpoint Qsum (xs : list Q) : Q :=
  match xs with
  | [] => 0
  | x :: r => x + Qsum r
  end.

Definition Qlen {A} (l : list A) : Q := inject_Z (Z.of_nat (length l)).

(** [count(a < score)] and [count(a <= score)] of scipy. *)
Definition count_lt (a : list Q) (score : Q) : nat :=
  length (filter (fun y => negb (Qle_bool score y)) a).

Definition count_le (a : list Q) (score : Q) : nat :=
  length (filter (fun y => Qle_bool y score) a).

(** [scipy.stats.percentileofscore(a, score, kind='mean')]:
    [left = count(a < score); right = count(a <= score);
     (left + right) * (50.0 / n)]. *)
Definition percentileofscore (a : list Q) (score : Q) : Q :=
  inject_Z (Z.of_nat (count_lt a score + count_le a score)) * (50 / Qlen a).

(** Round half to even to the nearest integer ([numpy.rint]). *)
Definition rint (q : Q) : Z :=
  let f := Qfloor q in
  match Qcompare (q - inject_Z f) (1 # 2) with
  | Lt => f
  | Gt => (f + 1)%Z
  | Eq => if Z.even f then f else (f + 1)%Z
  end.

Definition pow10 (n : nat) : Q := inject_Z (10 ^ Z.of_nat n).

(** [Series.round(n)] and Python's [round(x, n)] on one value. *)
Definition round_nd (n : nat) (q : Q) : Q :=
  inject_Z (rint (q * pow10 n)) / pow10 n.

(** Row-wise [mean(axis=1)] with the default [skipna=True]. *)
Definition row_mean (xs : list (option Q)) : option Q :=
  match dropna xs with
  | [] => None
  | v :: r => Some (Qsum (v :: r) / Qlen (v :: r))
  end.

(** Row-wise [min(axis=1)] with the default [skipna=True]. *)
Definition row_min (xs : list (option Q)) : option Q :=
  match dropna xs with
  | [] => None
  | v :: r => Some (fold_left Qmin r v)
  end.

(** [DataFrame.head(n)]: the first [n] rows, and for a negative [n] all rows
    but the last [-n]. *)
Definition head {A} (n : Z) (df : list A) : list A :=
  if (0 <=? n)%Z then firstn (Z.to_nat n) df
  else firstn (length df - Z.to_nat (- n)) df.

(** Python's [int(x)] on a float: truncation towards zero. *)
Definition py_int (q : Q) : Z := Z.quot (Qnum q) (Zpos (Qden q)).

(** ** Data model *)

(** A row of the [stocks] table as loaded by [run_hqm_scan_from_db]. *)
Record Stock := mkStock {
  Ticker : string;
  Exchange : string;
  Market_Cap : option Q;
  Price : Q;
  Return_1M : option Q;
  Return_3M : option Q;
  Return_6M : option Q;
  Return_1Y : option Q
}.

(** A row after the percentile columns have been added. *)
Record Ranked := mkRanked {
  stock : Stock;
  Pct_1M : option Q;
  Pct_3M : option Q;
  Pct_6M : option Q;
  Pct_1Y : option Q
}.

(** A row after [HQM_Score] and [Min_Percentile] have been added. *)
Record Scored := mkScored {
  ranked : Ranked;
  HQM_Score : option Q;
  Min_Percentile : option Q
}.

(** A candidate row: the scored row and its [SMA10_Distance]. *)
Record Candidate := mkCandidate {
  scored : Scored;
  SMA10_Distance : option Q
}.

(** A sized row: the selected row with [Allocation], [Weight], [Shares] and
    [Value] added ([Allocation_USD], [Position_Weight], [Shares_to_Buy] and
    [Actual_Value] in [momentum.py]). *)
Record Sized (A : Type) := mkSized {
  row : A;
  Allocation : Q;
  Weight : Q;
  Shares : Z;
  Value : Q
}.
Arguments mkSized {A}.
Arguments row {A}.
Arguments Allocation {A}.
Arguments Weight {A}.
Arguments Shares {A}.
Arguments Value {A}.

Definition scored_stock (s : Scored) : Stock := stock (ranked s).

(** ** Scoring ([calculate_percentile_scores], [calculate_hqm_score]) *)

(** One percentile column: [valid_returns = df[return_col].dropna()] and,
    per row, [percentileofscore(valid_returns, x, kind='mean')] when [x] is
    defined, NaN otherwise. *)
Definition pct_of (return_col : Stock -> option Q) (df : list Stock)
  (s : Stock) : option Q :=
  let valid_returns := dropna (map return_col df) in
  match return_col s with
  | Some x => Some (percentileofscore valid_returns x)
  | None => None
  end.

Definition calculate_percentile_scores (df : list Stock) : list Ranked :=
  map (fun s =>
         {| stock := s;
            Pct_1M := pct_of Return_1M df s;
            Pct_3M := pct_of Return_3M df s;
            Pct_6M := pct_of Return_6M df s;
            Pct_1Y := pct_of Return_1Y df s |}) df.

Definition percentile_columns (r : Ranked) : list (option Q) :=
  [Pct_1M r; Pct_3M r; Pct_6M r; Pct_1Y r].

Definition calculate_hqm_score (df : list Ranked) : list Scored :=
  map (fun r =>
         {| ranked := r;
            HQM_Score := row_mean (percentile_columns r);
            Min_Percentile := row_min (percentile_columns r) |}) df.

(** ** Quality filter *)

(** [series >= threshold] on one value: a NaN compares false. *)
Definition ge_threshold (m : option Q) (threshold : Q) : bool :=
  match m with
  | Some v => Qle_bool threshold v
  | None => false
  end.

(** [df[df['Min_Percentile'] >= min_percentile]]. *)
Definition quality_filter (min_percentile : Q) (df : list Scored) : list Scored :=
  filter (fun s => ge_threshold (Min_Percentile s) min_percentile) df.

(** ** Ordering by [HQM_Score]

    [df.sort_values('HQM_Score', ascending=False)] is called with pandas'
    default [kind='quicksort'].  What pandas promises for it is that the rows
    come back rearranged in descending key order with NaN keys last; only
    [kind='mergesort'] and [kind='stable'] promise more.  The routine is
    therefore a parameter [sort_values] of the functions below, and
    [sort_values_ok] is what is known about it. *)

(** [desc a b]: the key of [a] may stand before the key of [b]. *)
Definition desc (a b : option Q) : Prop :=
  match a, b with
  | Some x, Some y => y <= x
  | _, None => True
  | None, Some _ => False
  end.

Definition desc_b (a b : option Q) : bool :=
  match a, b with
  | Some x, Some y => Qle_bool y x
  | _, None => true
  | None, Some _ => false
  end.

Definition hqm_desc (a b : Scored) : Prop := desc (HQM_Score a) (HQM_Score b).

Definition sort_values_ok (sort_values : list Scored -> list Scored) : Prop :=
  forall df, Permutation df (sort_values df) /\ Sorted hqm_desc (sort_values df).

(** A sorting routine that meets [sort_values_ok]: the insertion sort that
    puts a row before the rows with an equal key. *)
Fixpoint insert_by (before : Scored -> Scored -> bool) (x : Scored)
  (l : list Scored) : list Scored :=
  match l with
  | [] => [x]
  | y :: r => if before x y then x :: y :: r else y :: insert_by before x r
  end.

Definition sort_by (before : Scored -> Scored -> bool) (df : list Scored)
  : list Scored :=
  fold_right (insert_by before) [] df.

Definition sort_stable : list Scored -> list Scored :=
  sort_by (fun x y => desc_b (HQM_Score x) (HQM_Score y)).

(** ** Candidate selection *)

(** [candidates_multiplier = 3 if max_sma10_distance is not None else 1.5]. *)
Definition candidates_multiplier (max_sma10_distance : option Q) : Q :=
  match max_sma10_distance with
  | Some _ => 3
  | None => 3 # 2
  end.

(** [min(int(num_positions * candidates_multiplier), len(df))]. *)
Definition candidates_count (max_sma10_distance : option Q) (num_positions : Z)
  (len_df : nat) : Z :=
  Z.min (py_int (inject_Z num_positions * candidates_multiplier max_sma10_distance))
        (Z.of_nat len_df).

(** The sort and the truncation to the candidate pool. *)
Definition select_candidates (sort_values : list Scored -> list Scored)
  (max_sma10_distance : option Q) (num_positions : Z) (df : list Scored)
  : list Scored :=
  let df := sort_values df in
  head (candidates_count max_sma10_distance num_positions (length df)) df.

(** ** Distance to the ten-day moving average ([get_sma10_distance]) *)

(** The closing prices of one ticker by date; [None] is a NaN. *)
Definition Column := list (option Q).

(** The ['Close'] part of a downloaded frame: a column per ticker, all of
    one length.  For a one-ticker download, whose frame has plain column
    names, the single ['Close'] column is listed under that ticker. *)
Definition Frame := list (string * Column).

(** What [yf.download] does: it raises, or returns a frame. *)
Inductive Download :=
| DownloadError
| Data (data : Frame).

(** [len(data)] and [data.empty]. *)
Definition frame_len (data : Frame) : nat :=
  match data with
  | [] => 0%nat
  | (_, c) :: _ => length c
  end.

Definition frame_empty (data : Frame) : bool := Nat.eqb (frame_len data) 0.

Fixpoint close_of (data : Frame) (ticker : string) : option Column :=
  match data with
  | [] => None
  | (t, c) :: r => if String.eqb t ticker then Some c else close_of r ticker
  end.

(** The result dictionary: [results[ticker] = v] and [results.get(ticker)]. *)
Definition dict := list (string * Q).

Fixpoint dict_set (d : dict) (k : string) (v : Q) : dict :=
  match d with
  | [] => [(k, v)]
  | (k', v') :: r =>
      if String.eqb k' k then (k, v) :: r else (k', v') :: dict_set r k v
  end.

Fixpoint dict_get (d : dict) (k : string) : option Q :=
  match d with
  | [] => None
  | (k', v) :: r => if String.eqb k' k then Some v else dict_get r k
  end.

Definition all_defined (xs : Column) : bool :=
  forallb (fun x => match x with Some _ => true | None => false end) xs.

Definition lastn {A} (n : nat) (l : list A) : list A := skipn (length l - n) l.

(** [closes.rolling(window=10).mean().iloc[-1]]: the mean of the last ten
    entries, NaN when there are fewer than ten or one of them is NaN. *)
Definition rolling10_last (closes : Column) : option Q :=
  if (length closes <? 10)%nat then None
  else if all_defined (lastn 10 closes)
       then Some (Qsum (dropna (lastn 10 closes)) / 10)
       else None.

(** The body shared by the two branches: [sma10], [current_price], the test
    [sma10 > 0] (false on NaN) and the rounded distance. *)
Definition sma10_entry (closes : Column) : option Q :=
  match rolling10_last closes, last closes None with
  | Some sma10, Some current_price =>
      if Qle_bool sma10 0 then None
      else Some (round_nd 2 ((current_price - sma10) / sma10 * 100))
  | _, _ => None
  end.

Definition store (results : dict) (ticker : string) (d : option Q) : dict :=
  match d with
  | Some v => dict_set results ticker v
  | None => results
  end.

(** One-ticker batch: ['Close' in data.columns and len(data) >= 10], the
    column taken as it is. *)
Definition single_ticker (data : Frame) (ticker : string) (results : dict) : dict :=
  match close_of data ticker with
  | Some closes =>
      if (10 <=? frame_len data)%nat then store results ticker (sma10_entry closes)
      else results
  | None => results
  end.

(** Several tickers: [closes = data['Close'][ticker].dropna()] and
    [len(closes) >= 10]. *)
Definition multi_ticker (data : Frame) (ticker : string) (results : dict) : dict :=
  match close_of data ticker with
  | Some col =>
      let closes := map Some (dropna col) in
      if (10 <=? length closes)%nat then store results ticker (sma10_entry closes)
      else results
  | None => results
  end.

Definition batch_size : nat := 50.

(** [tickers[i:i + batch_size] for i in range(0, len(tickers), batch_size)]. *)
Fixpoint batches_fuel {A} (fuel : nat) (l : list A) : list (list A) :=
  match fuel, l with
  | S f, _ :: _ => firstn batch_size l :: batches_fuel f (skipn batch_size l)
  | _, _ => []
  end.

Definition batches {A} (l : list A) : list (list A) := batches_fuel (length l) l.

Definition process_batch (download : list string -> Download) (results : dict)
  (batch : list string) : dict :=
  match download batch with
  | DownloadError => results
  | Data data =>
      if frame_empty data then results
      else match batch with
           | [ticker] => single_ticker data ticker results
           | _ => fold_left (fun res t => multi_ticker data t res) batch results
           end
  end.

Definition get_sma10_distance (download : list string -> Download)
  (tickers : list string) : dict :=
  fold_left (process_batch download) (batches tickers) [].

(** ** Trend-extension filter *)

(** [df_candidates['SMA10_Distance'] = df_candidates['Ticker'].map(
      lambda t: sma10_distances.get(t, None))]. *)
Definition add_sma10 (sma10_distances : dict) (df : list Scored) : list Candidate :=
  map (fun s => {| scored := s;
                   SMA10_Distance := dict_get sma10_distances (Ticker (scored_stock s)) |})
      df.

(** [isna() | (SMA10_Distance <= max_sma10_distance)] on one row. *)
Definition within_trend (max_sma10_distance : Q) (c : Candidate) : bool :=
  match SMA10_Distance c with
  | None => true
  | Some d => Qle_bool d max_sma10_distance
  end.

(** The filter, applied only when a threshold is given. *)
Definition sma10_filter (max_sma10_distance : option Q) (df : list Candidate)
  : list Candidate :=
  match max_sma10_distance with
  | Some m => filter (within_trend m) df
  | None => df
  end.

(** ** Position sizing *)

(** [math.floor(allocation_per_stock / price) if price > 0 else 0]. *)
Definition shares_for (allocation_per_stock price : Q) : Z :=
  if Qle_bool price 0 then 0%Z else Qfloor (allocation_per_stock / price).

(** The sizing columns of one row, for a selection of [n] rows. *)
Definition size_row {A} (price : A -> Q) (allocation_per_stock n : Q) (r : A)
  : Sized A :=
  let shares := shares_for allocation_per_stock (price r) in
  {| row := r;
     Allocation := allocation_per_stock;
     Weight := 100 / n;
     Shares := shares;
     Value := inject_Z shares * price r |}.

(** The sizing columns for a selection; [None] is the [ZeroDivisionError] of
    [portfolio_size / len(df)] on an empty selection. *)
Definition size_rows {A} (price : A -> Q) (df : list A) (portfolio_size : Q)
  : option (list (Sized A)) :=
  match df with
  | [] => None
  | _ :: _ =>
      let allocation_per_stock := portfolio_size / Qlen df in
      Some (map (size_row price allocation_per_stock (Qlen df)) df)
  end.

Definition total_invested_of {A} (df : list (Sized A)) : Q := Qsum (map Value df).

(** ** Rounding for output *)

Definition round_opt (n : nat) (x : option Q) : option Q :=
  match x with
  | Some v => Some (round_nd n v)
  | None => None
  end.

(** The return columns rounded to [nr] places, the percentile columns and
    [HQM_Score] to [np] places. *)
Definition round_stock (nr : nat) (s : Stock) : Stock :=
  {| Ticker := Ticker s; Exchange := Exchange s;
     Market_Cap := Market_Cap s; Price := Price s;
     Return_1M := round_opt nr (Return_1M s);
     Return_3M := round_opt nr (Return_3M s);
     Return_6M := round_opt nr (Return_6M s);
     Return_1Y := round_opt nr (Return_1Y s) |}.

Definition round_ranked (nr np : nat) (r : Ranked) : Ranked :=
  {| stock := round_stock nr (stock r);
     Pct_1M := round_opt np (Pct_1M r);
     Pct_3M := round_opt np (Pct_3M r);
     Pct_6M := round_opt np (Pct_6M r);
     Pct_1Y := round_opt np (Pct_1Y r) |}.

Definition round_scored (nr np : nat) (s : Scored) : Scored :=
  {| ranked := round_ranked nr np (ranked s);
     HQM_Score := round_opt np (HQM_Score s);
     Min_Percentile := Min_Percentile s |}.

(** The "Round values" block of [run_hqm_scan_from_db]. *)
Definition round_values (p : Sized Candidate) : Sized Candidate :=
  {| row := {| scored := round_scored 4 1 (scored (row p));
               SMA10_Distance := SMA10_Distance (row p) |};
     Allocation := Allocation p;
     Weight := round_nd 1 (Weight p);
     Shares := Shares p;
     Value := round_nd 2 (Value p) |}.

(** ** The scan ([run_hqm_scan_from_db]) *)

Record Summary := mkSummary {
  total_scanned : nat;
  after_quality_filter : nat;
  filtered_out : nat;
  filtered_by_sma10 : nat;
  max_sma10_distance : option Q;
  selected : nat;
  total_invested : Q;
  cash_remaining : Q;
  portfolio_size : Q;
  allocation_per_stock : Q
}.

(** How a call ends: the failure dictionary of an empty table, the
    [ZeroDivisionError] of the sizing step, or a result. *)
Inductive Outcome :=
| NoData
| ZeroDivisionError
| Success (results : list (Sized Candidate)) (summary : Summary).

Definition quality_threshold : Q := 25.

(** The rows selected by the scan, before sizing. *)
Definition scan_selection (sort_values : list Scored -> list Scored)
  (download : list string -> Download) (df : list Stock)
  (num_positions : Z) (max_sma10 : option Q) : list Candidate :=
  let df := calculate_hqm_score (calculate_percentile_scores df) in
  let df := quality_filter quality_threshold df in
  let df_candidates := select_candidates sort_values max_sma10 num_positions df in
  let tickers := map (fun s => Ticker (scored_stock s)) df_candidates in
  let sma10_distances := get_sma10_distance download tickers in
  let df_candidates := add_sma10 sma10_distances df_candidates in
  head num_positions (sma10_filter max_sma10 df_candidates).

Definition candidate_price (c : Candidate) : Q := Price (scored_stock (scored c)).

Definition run_hqm_scan_from_db (sort_values : list Scored -> list Scored)
  (download : list string -> Download) (stocks : list Stock)
  (portfolio_size : Q) (num_positions : Z) (max_sma10 : option Q) : Outcome :=
  match stocks with
  | [] => NoData
  | _ :: _ =>
      let df := calculate_hqm_score (calculate_percentile_scores stocks) in
      let total_before_filter := length df in
      let df := quality_filter quality_threshold df in
      let filtered_out := (total_before_filter - length df)%nat in
      let df_candidates := select_candidates sort_values max_sma10 num_positions df in
      let tickers := map (fun s => Ticker (scored_stock s)) df_candidates in
      let sma10_distances := get_sma10_distance download tickers in
      let df_candidates := add_sma10 sma10_distances df_candidates in
      let before_sma10_filter := length df_candidates in
      let df_candidates := sma10_filter max_sma10 df_candidates in
      let filtered_by_sma10 :=
        match max_sma10 with
        | Some _ => (before_sma10_filter - length df_candidates)%nat
        | None => 0%nat
        end in
      let df := head num_positions df_candidates in
      match size_rows candidate_price df portfolio_size with
      | None => ZeroDivisionError
      | Some sized =>
          let total_invested := total_invested_of sized in
          let cash_remaining := portfolio_size - total_invested in
          Success (map round_values sized)
            {| total_scanned := length stocks;
               after_quality_filter := (total_before_filter - filtered_out)%nat;
               filtered_out := filtered_out;
               filtered_by_sma10 := filtered_by_sma10;
               max_sma10_distance := max_sma10;
               selected := length df;
               total_invested := round_nd 2 total_invested;
               cash_remaining := round_nd 2 cash_remaining;
               portfolio_size := portfolio_size;
               allocation_per_stock := round_nd 2 (portfolio_size / Qlen df) |}
      end
  end.

(** ** The command-line pipeline of [momentum.py] *)

(** [filter_quality_momentum]: the quality filter, the sort and
    [head(num_positions)]. *)
Definition filter_quality_momentum (sort_values : list Scored -> list Scored)
  (df : list Scored) (num_positions : Z) (min_percentile : Q) : list Scored :=
  head num_positions (sort_values (quality_filter min_percentile df)).

(** [calculate_position_sizes]; [None] is its [ZeroDivisionError]. *)
Definition calculate_position_sizes (df : list Scored) (portfolio_size : Q)
  : option (list (Sized Scored)) :=
  size_rows (fun s => Price (scored_stock s)) df portfolio_size.

(** [prepare_output_dataframe]: returns rounded to 2 places, percentiles and
    the score to 1 place; the sizing columns are left as they are. *)
Definition prepare_output_dataframe (df : list (Sized Scored)) : list (Sized Scored) :=
  map (fun p => {| row := round_scored 2 1 (row p);
                   Allocation := Allocation p;
                   Weight := Weight p;
                   Shares := Shares p;
                   Value := Value p |}) df.

(** ** Request validation ([start_scan] of [app.py]) *)

Inductive Status := idle | refreshing | scanning | completed | error.

Inductive Response :=
| NoDataAvailable              (* 'No data available. Please refresh data first.' *)
| OperationInProgress          (* 'Operation already in progress' *)
| PortfolioSizeTooSmall        (* 'Portfolio size must be at least $1,000' *)
| NumPositionsOutOfRange       (* 'Number of positions must be between 1 and 50' *)
| ScanStarted.                 (* 'Scan started' *)

Definition busy (s : Status) : bool :=
  match s with
  | refreshing | scanning => true
  | _ => false
  end.

(** The handler, on the number of stored stocks, the application status and
    the parsed parameters: the response and the status it leaves.  The scan
    thread is started, and the status set to [scanning], only with
    [ScanStarted]. *)
Definition start_scan (stock_count : nat) (status : Status)
  (portfolio_size : Q) (num_positions : Z) : Response * Status :=
  if Nat.eqb stock_count 0 then (NoDataAvailable, status)
  else if busy status then (OperationInProgress, status)
  else if negb (Qle_bool 1000 portfolio_size) then (PortfolioSizeTooSmall, status)
  else if ((num_positions <? 1) || (50 <? num_positions))%Z
       then (NumPositionsOutOfRange, status)
  else (ScanStarted, scanning).

Definition is_validation_error (r : Response) : bool :=
  match r with
  | PortfolioSizeTooSmall | NumPositionsOutOfRange => true
  | _ => false
  end.

(** ** The four timeframes, for statements about any of them *)

Inductive Timeframe := TF_1M | TF_3M | TF_6M | TF_1Y.

Definition return_col (tf : Timeframe) : Stock -> option Q :=
  match tf with
  | TF_1M => Return_1M | TF_3M => Return_3M
  | TF_6M => Return_6M | TF_1Y => Return_1Y
  end.

Definition pct_col (tf : Timeframe) : Ranked -> option Q :=
  match tf with
  | TF_1M => Pct_1M | TF_3M => Pct_3M
  | TF_6M => Pct_6M | TF_1Y => Pct_1Y
  end.

(** The mean-rank percentile in the words of the specification: the numbers
    of snapshots whose return is below, respectively at most, [x]. *)
Definition returns_below (col : Stock -> option Q) (df : list Stock) (x : Q) : nat :=
  length (filter (fun t => match col t with
                           | Some y => if Qlt_le_dec y x then true else false
                           | None => false
                           end) df).

Definition returns_at_most (col : Stock -> option Q) (df : list Stock) (x : Q) : nat :=
  length (filter (fun t => match col t with
                           | Some y => if Qlt_le_dec x y then false else true
                           | None => false
                           end) df).

Definition mean_rank (col : Stock -> option Q) (df : list Stock) (x : Q) : Q :=
  100 * inject_Z (Z.of_nat (returns_below col df x + returns_at_most col df x))
  / (2 * Qlen df).

(** ** Worked examples *)

(** The five tickers of the worked example, in the order D, B, C, A, E. *)
Definition example_stock (t : string) (r1m : Q) : Stock :=
  {| Ticker := t; Exchange := "NYSE"; Market_Cap := None; Price := 10;
     Return_1M := Some r1m; Return_3M := Some r1m;
     Return_6M := Some r1m; Return_1Y := Some r1m |}.

Definition example_df : list Stock :=
  [ example_stock "D" (2 # 100); example_stock "B" (5 # 100);
    example_stock "C" (8 # 100); example_stock "A" (10 # 100);
    example_stock "E" (15 # 100) ].

Definition example_scored : list Scored :=
  calculate_hqm_score (calculate_percentile_scores example_df).

(** Two snapshots with the same returns, "A" stored before "B". *)
Definition tie_df : list Stock :=
  [ example_stock "A" (5 # 100); example_stock "B" (5 # 100) ].

Definition tie_survivors : list Scored :=
  quality_filter quality_threshold
    (calculate_hqm_score (calculate_percentile_scores tie_df)).

Definition tickers_of (df : list Scored) : list string :=
  map (fun s => Ticker (scored_stock s)) df.

(** [cand_desc a b]: candidate [a] may stand before candidate [b]. *)
Definition cand_desc (a b : Candidate) : Prop :=
  desc (HQM_Score (scored a)) (HQM_Score (scored b)).

(** A pool of two candidates: "A" 12 percent above its average, "B" without
    a distance. *)
Definition example_pool : list Candidate :=
  add_sma10 [("A"%string, 12)] tie_survivors.

Definition default_scored : Scored :=
  mkScored (mkRanked (example_stock "D" 0) None None None None) None None.

Definition default_candidate : Candidate := mkCandidate default_scored None.

(** Three snapshots, each the weakest of the three in one timeframe. *)
Definition low_stock (t : string) (r1m r3m r6m r1y : Q) : Stock :=
  {| Ticker := t; Exchange := "NASDAQ"; Market_Cap := None; Price := 10;
     Return_1M := Some r1m; Return_3M := Some r3m;
     Return_6M := Some r6m; Return_1Y := Some r1y |}.

Definition low_df : list Stock :=
  [ low_stock "A" (1 # 100) (5 # 100) (5 # 100) (5 # 100);
    low_stock "B" (5 # 100) (1 # 100) (5 # 100) (5 # 100);
    low_stock "C" (5 # 100) (5 # 100) (1 # 100) (5 # 100) ].

(** A price service that never answers. *)
Definition no_download (batch : list string) : Download := DownloadError.

(** A price service answering, for every ticker asked, nine closes of 10
    followed by a close of 20. *)
Definition extended_column : Column := repeat (Some 10) 9 ++ [Some 20].

Definition extended_download (batch : list string) : Download :=
  Data (map (fun t => (t, extended_column)) batch).

(** A price service answering, for every ticker asked, ten closes of 10
    followed by a row without a close. *)
Definition nan_tail_column : Column := repeat (Some 10) 10 ++ [None].

Definition nan_tail_download (batch : list string) : Download :=
  Data (map (fun t => (t, nan_tail_column)) batch).

(** ** The whole command-line run ([run_hqm_strategy], steps 2 to 6) *)

Definition run_hqm_strategy (sort_values : list Scored -> list Scored)
  (df : list Stock) (port_size : Q) (num_pos : Z)
  : option (list (Sized Scored)) :=
  let df := calculate_percentile_scores df in
  let df := calculate_hqm_score df in
  let df := filter_quality_momentum sort_values df num_pos 25 in
  match calculate_position_sizes df port_size with
  | Some df => Some (prepare_output_dataframe df)
  | None => None
  end.

(** One snapshot with a four-decimal return and price. *)
Definition cli_df : list Stock :=
  [ {| Ticker := "X"; Exchange := "NYSE"; Market_Cap := None;
       Price := 33337 # 10000;
       Return_1M := Some (1234 # 10000); Return_3M := Some (1234 # 10000);
       Return_6M := Some (1234 # 10000); Return_1Y := Some (1234 # 10000) |} ].

(** ** What "rounded to [n] decimal places" says of a figure *)

Definition rounded_to (n : nat) (raw out : Q) : Prop :=
  (exists z : Z, out == inject_Z z / pow10 n) /\
  Qabs (out - raw) <= (1 # 2) / pow10 n.

Definition rounded_opt (n : nat) (raw out : option Q) : Prop :=
  match raw, out with
  | Some a, Some b => rounded_to n a b
  | None, None => True
  | _, _ => False
  end.


(** A result row of the scan against the row it was rounded from. *)
Definition rounded_position (raw out : Sized Candidate) : Prop :=
  let rs := scored (row raw) in
  let os := scored (row out) in
  Ticker (scored_stock os) = Ticker (scored_stock rs) /\
  Price (scored_stock os) = Price (scored_stock rs) /\
  Shares out = Shares raw /\
  rounded_opt 4 (Return_1M (scored_stock rs)) (Return_1M (scored_stock os)) /\
  rounded_opt 4 (Return_3M (scored_stock rs)) (Return_3M (scored_stock os)) /\
  rounded_opt 4 (Return_6M (scored_stock rs)) (Return_6M (scored_stock os)) /\
  rounded_opt 4 (Return_1Y (scored_stock rs)) (Return_1Y (scored_stock os)) /\
  rounded_opt 1 (Pct_1M (ranked rs)) (Pct_1M (ranked os)) /\
  rounded_opt 1 (Pct_3M (ranked rs)) (Pct_3M (ranked os)) /\
  rounded_opt 1 (Pct_6M (ranked rs)) (Pct_6M (ranked os)) /\
  rounded_opt 1 (Pct_1Y (ranked rs)) (Pct_1Y (ranked os)) /\
  rounded_opt 1 (HQM_Score rs) (HQM_Score os) /\
  rounded_to 1 (Weight raw) (Weight out) /\
  rounded_to 2 (Value raw) (Value out).

(** An output row of the command-line run against the row it came from. *)
Definition cli_rounded_position (raw out : Sized Scored) : Prop :=
  rounded_opt 2 (Return_1M (scored_stock (row raw))) (Return_1M (scored_stock (row out))) /\
  rounded_opt 2 (Return_3M (scored_stock (row raw))) (Return_3M (scored_stock (row out))) /\
  rounded_opt 2 (Return_6M (scored_stock (row raw))) (Return_6M (scored_stock (row out))) /\
  rounded_opt 2 (Return_1Y (scored_stock (row raw))) (Return_1Y (scored_stock (row out))) /\
  rounded_opt 1 (Pct_1M (ranked (row raw))) (Pct_1M (ranked (row out))) /\
  rounded_opt 1 (Pct_3M (ranked (row raw))) (Pct_3M (ranked (row out))) /\
  rounded_opt 1 (Pct_6M (ranked (row raw))) (Pct_6M (ranked (row out))) /\
  rounded_opt 1 (Pct_1Y (ranked (row raw))) (Pct_1Y (ranked (row out))) /\
  rounded_opt 1 (HQM_Score (row raw)) (HQM_Score (row out)) /\
  Weight out = Weight raw /\
  Value out = Value raw.


(** A scan of one stored stock, for the examples. *)
Definition scan_example : Outcome :=
  run_hqm_scan_from_db sort_stable no_download
    [example_stock "A" (5 # 100)] 10000 8 None.

Definition scan_example_results : list (Sized Candidate) :=
  match scan_example with
  | Success results _ => results
  | _ => []
  end.

Definition scan_example_summary : Summary :=
  match scan_example with
  | Success _ summary => summary
  | _ => mkSummary 0 0 0 0 None 0 0 0 0 0
  end.

(** The ten-day average and the distance in the words of the
    specification, on the valid closes of a ticker. *)
Definition sma10_of (closes : list Q) : Q := Qsum (lastn 10 closes) / 10.



(** ** Data collection ([get_exchange_data], [collect_all_stocks],
    [fetch_and_store_data]) *)

(** A row of the Overview screen, cut to ['Ticker', 'Market Cap', 'Price']. *)
Record OverviewRow := mkOverviewRow {
  ov_Ticker : string;
  ov_Market_Cap : option Q;
  ov_Price : Q
}.

(** A row of the Performance screen, cut to [perf_columns]. *)
Record PerfRow := mkPerfRow {
  pf_Ticker : string;
  Perf_Month : option Q;
  Perf_Quart : option Q;
  Perf_Half : option Q;
  Perf_Year : option Q
}.

(** [pd.merge(df_base, df_returns, on='Ticker', how='inner')] with the
    columns renamed and [df_merged['Exchange'] = exchange]: a row for every
    pair of rows with the same ticker, in the order of [df_base]. *)
Definition merge_exchange (exchange : string) (df_base : list OverviewRow)
  (df_returns : list PerfRow) : list Stock :=
  flat_map
    (fun b =>
       map (fun r =>
              {| Ticker := ov_Ticker b; Exchange := exchange;
                 Market_Cap := ov_Market_Cap b; Price := ov_Price b;
                 Return_1M := Perf_Month r; Return_3M := Perf_Quart r;
                 Return_6M := Perf_Half r; Return_1Y := Perf_Year r |})
           (filter (fun r => String.eqb (pf_Ticker r) (ov_Ticker b)) df_returns))
    df_base.

(** [drop_duplicates(subset='Ticker', keep='first')]. *)
Fixpoint drop_duplicates_from (seen : list string) (df : list Stock) : list Stock :=
  match df with
  | [] => []
  | s :: r =>
      if existsb (String.eqb (Ticker s)) seen then drop_duplicates_from seen r
      else s :: drop_duplicates_from (Ticker s :: seen) r
  end.

Definition drop_duplicates (df : list Stock) : list Stock :=
  drop_duplicates_from [] df.

Definition is_some (x : option Q) : bool :=
  match x with Some _ => true | None => false end.

(** A row with the four returns present. *)
Definition complete (s : Stock) : bool :=
  is_some (Return_1M s) && is_some (Return_3M s)
  && is_some (Return_6M s) && is_some (Return_1Y s).

(** [dropna(subset=return_columns)]. *)
Definition dropna_returns (df : list Stock) : list Stock := filter complete df.

(** [pd.concat(all_data)], [drop_duplicates] and [dropna], as both
    [collect_all_stocks] and [fetch_and_store_data] do. *)
Definition combine_exchanges (all_data : list (list Stock)) : list Stock :=
  dropna_returns (drop_duplicates (concat all_data)).

(** [collect_all_stocks] on what the two exchanges returned. *)
Definition collect_all_stocks (nyse nasdaq : list Stock) : list Stock :=
  combine_exchanges [nyse; nasdaq].

Record Stats := mkStats {
  nyse_count : nat;
  nasdaq_count : nat;
  total_stored : nat
}.

(** [fetch_and_store_data] on the [stocks] table: [screen] is what the two
    screeners return for an exchange, [None] when one of them raises.  An
    exception is raised again before the table is touched; otherwise the
    table is replaced by the combined frame. *)
Definition fetch_and_store_data
  (screen : string -> option (list OverviewRow * list PerfRow))
  (table : list Stock) : list Stock * option Stats :=
  match screen "NYSE"%string with
  | None => (table, None)
  | Some (base1, perf1) =>
      match screen "NASDAQ"%string with
      | None => (table, None)
      | Some (base2, perf2) =>
          let nyse := merge_exchange "NYSE" base1 perf1 in
          let nasdaq := merge_exchange "NASDAQ" base2 perf2 in
          let df := combine_exchanges [nyse; nasdaq] in
          (df, Some {| nyse_count := length nyse;
                       nasdaq_count := length nasdaq;
                       total_stored := length df |})
      end
  end.

(** [get_stock_count]. *)
Definition get_stock_count (table : list Stock) : nat := length table.

(** The stored row of a ticker. *)
Definition row_of (t : string) (df : list Stock) : option Stock :=
  find (fun s => String.eqb (Ticker s) t) df.


(** The entry the several-ticker branch computes for a ticker: the rounded
    distance when the ticker has a column with ten valid closes or more and
    a positive ten-day average. *)
Definition valid_history_entry (data : Frame) (ticker : string) : option Q :=
  match close_of data ticker with
  | Some col =>
      let closes := dropna col in
      if ((10 <=? length closes)%nat && negb (Qle_bool (sma10_of closes) 0))%bool
      then Some (round_nd 2 ((last closes 0 - sma10_of closes)
                             / sma10_of closes * 100))
      else None
  | None => None
  end.

(** A price service that gives nothing usable for a batch. *)
Definition unusable (d : Download) : Prop :=
  match d with
  | DownloadError => True
  | Data data => frame_empty data = true
  end.

(** The keys of a dictionary are among [keys]. *)
Definition keys_within (d : dict) (keys : list string) : Prop :=
  forall t, dict_get d t <> None -> In t keys.


(** The survivors of the quality filter in a scan of [stocks]. *)
Definition scan_survivors (stocks : list Stock) : list Scored :=
  quality_filter quality_threshold
    (calculate_hqm_score (calculate_percentile_scores stocks)).

(** The candidate pool of a scan, with the distances attached. *)
Definition scan_pool (sort_values : list Scored -> list Scored)
  (download : list string -> Download) (stocks : list Stock)
  (num_positions : Z) (max_sma10 : option Q) : list Candidate :=
  let df_candidates :=
    select_candidates sort_values max_sma10 num_positions (scan_survivors stocks) in
  add_sma10 (get_sma10_distance download (tickers_of df_candidates)) df_candidates.


(** ** Application state ([app_state], [update_state], the scan thread) *)

Record AppState := mkAppState {
  status : Status;
  progress : Z;
  message : string;
  results : option (list (Sized Candidate));
  summary : option Summary
}.

(** [app_state] as the module creates it. *)
Definition initial_state : AppState :=
  {| status := idle; progress := 0%Z; message := ""%string;
     results := None; summary := None |}.

Definition or_keep {A} (new : option A) (old : A) : A :=
  match new with
  | Some v => v
  | None => old
  end.

(** [update_state]: every argument that is not [None] replaces its key. *)
Definition update_state (new_status : option Status) (new_progress : option Z)
  (new_message : option string)
  (new_results : option (list (Sized Candidate)))
  (new_summary : option Summary) (st : AppState) : AppState :=
  {| status := or_keep new_status (status st);
     progress := or_keep new_progress (progress st);
     message := or_keep new_message (message st);
     results := match new_results with Some r => Some r | None => results st end;
     summary := match new_summary with Some s => Some s | None => summary st end |}.

(** [start_scan] with the state it leaves: the checks of [start_scan] above
    and, when they pass, [update_state(status='scanning', progress=0,
    message='Running HQM scan...')]. *)
Definition start_scan_request (stock_count : nat) (st : AppState)
  (portfolio_size : Q) (num_positions : Z) : Response * AppState :=
  match fst (start_scan stock_count (status st) portfolio_size num_positions) with
  | ScanStarted =>
      (ScanStarted,
       update_state (Some scanning) (Some 0%Z) (Some "Running HQM scan..."%string)
                    None None st)
  | refusal => (refusal, st)
  end.

(** [scan_thread] on what [run_hqm_scan_from_db] did; [str_e] is the text of
    the exception when it raised. *)
Definition scan_thread (st : AppState) (result : Outcome) (str_e : string)
  : AppState :=
  let st := update_state None (Some 30%Z) (Some "Calculating HQM scores..."%string)
                         None None st in
  match result with
  | Success results summary =>
      update_state (Some completed) (Some 100%Z) (Some "Scan complete!"%string)
                   (Some results) (Some summary) st
  | NoData =>
      update_state (Some error) None
                   (Some "No data in database. Please refresh data first."%string)
                   None None st
  | ZeroDivisionError =>
      update_state (Some error) None (Some str_e) None None st
  end.

Inductive RefreshResponse :=
| RefreshRefused               (* 'Operation already in progress' *)
| RefreshStarted.              (* 'Refresh started' *)

(** [start_refresh] up to the start of its thread. *)
Definition start_refresh (st : AppState) : RefreshResponse * AppState :=
  if busy (status st) then (RefreshRefused, st)
  else (RefreshStarted,
        update_state (Some refreshing) (Some 0%Z)
                     (Some "Starting data refresh..."%string) None None st).

(** [get_results]: [None] is the 'No results available' failure. *)
Definition get_results (st : AppState)
  : option (list (Sized Candidate) * option Summary) :=
  match results st with
  | None => None
  | Some r => Some (r, summary st)
  end.


(** ** Market-cap display ([format_market_cap]) *)

(** [f"{x:.1f}"]: the sign, the integer part and one decimal of [x] rounded
    half to even at the first decimal. *)
Definition format_1f (x : Q) : string :=
  let tenths := rint (Qabs x * 10) in
  ((if Qle_bool 0 x then "" else "-")
   ++ NilZero.string_of_uint (N.to_uint (Z.to_N (tenths / 10)))
   ++ "."
   ++ NilZero.string_of_uint (N.to_uint (Z.to_N (tenths mod 10))))%string.

Definition format_market_cap (value : option Q) : string :=
  match value with
  | None => "-"%string
  | Some value =>
      let value_billions := value / 1000000000 in
      if Qle_bool 1000 value_billions
      then (format_1f (value_billions / 1000) ++ "T")%string
      else (format_1f value_billions ++ "B")%string
  end.


(** ** [sort_values] as pandas and numpy compute it

    [df.sort_values('HQM_Score', ascending=False)] goes through pandas'
    [nargsort] with the default [kind='quicksort'], which calls numpy's
    [argsort].  The definitions below follow numpy's scalar index quicksort
    ([aquicksort] of [npysort/quicksort.cpp]): median-of-three partitioning
    of every stretch of more than [SMALL_QUICKSORT] + 1 entries, insertion
    sort of the shorter ones, an explicit stack, and a switch to heapsort
    when the depth limit is used up.  The heapsort is not modelled: the
    functions return [None] where numpy would switch to it. *)






















(** A scan of the five-ticker example, whose result has several rows. *)
Definition scan_ranked : Outcome :=
  run_hqm_scan_from_db sort_stable no_download example_df 10000 8 None.

Definition scan_ranked_results : list (Sized Candidate) :=
  match scan_ranked with
  | Success results _ => results
  | _ => []
  end.

Definition scan_ranked_summary : Summary :=
  match scan_ranked with
  | Success _ summary => summary
  | _ => mkSummary 0 0 0 0 None 0 0 0 0 0
  end.

(** * Properties *)

(** ** Counting and percentiles *)

Lemma Qle_bool_false_lt (x y : Q) : Qle_bool x y = false <-> y < x.
Proof.
  split; intro H.
  - apply Qnot_le_lt. intro Hle. apply Qle_bool_iff in Hle. congruence.
  - destruct (Qle_bool x y) eqn:E; [|reflexivity].
    apply Qle_bool_iff in E. exfalso. apply (Qlt_not_le _ _ H E).
Qed.

Lemma filter_length_le {A} (f : A -> bool) (l : list A) :
  (length (filter f l) <= length l)%nat.
Proof.
  induction l as [|a l IH]; simpl; [lia|].
  destruct (f a); simpl; lia.
Qed.

Lemma count_lt_le_length (a : list Q) (x : Q) :
  (count_lt a x + count_le a x <= 2 * length a)%nat.
Proof.
  unfold count_lt, count_le.
  pose proof (filter_length_le (fun y => negb (Qle_bool x y)) a).
  pose proof (filter_length_le (fun y => Qle_bool y x) a).
  lia.
Qed.

Lemma Qlen_nonneg {A} (l : list A) : 0 <= Qlen l.
Proof.
  unfold Qlen. change 0 with (inject_Z 0). rewrite <- Zle_Qle. lia.
Qed.

Lemma Qlen_pos {A} (l : list A) : l <> [] -> 0 < Qlen l.
Proof.
  intro H. unfold Qlen. change 0 with (inject_Z 0). rewrite <- Zlt_Qlt.
  destruct l; [congruence|simpl; lia].
Qed.


Lemma percentileofscore_bounds (a : list Q) (x : Q) :
  0 <= percentileofscore a x /\ percentileofscore a x <= 100.
Proof.
  unfold percentileofscore.
  set (k := inject_Z (Z.of_nat (count_lt a x + count_le a x))).
  assert (Hk0 : 0 <= k).
  { unfold k. change 0 with (inject_Z 0). rewrite <- Zle_Qle. lia. }
  assert (Hk2 : k <= 2 * Qlen a).
  { unfold k, Qlen. change 2 with (inject_Z 2).
    rewrite <- inject_Z_mult, <- Zle_Qle.
    pose proof (count_lt_le_length a x). lia. }
  destruct a as [|y a].
  - assert (E : 50 / Qlen (@nil Q) == 0) by reflexivity.
    rewrite E. split; [rewrite Qmult_0_r; apply Qle_refl|].
    rewrite Qmult_0_r. discriminate.
  - assert (Hn : 0 < Qlen (y :: a)) by (apply Qlen_pos; discriminate).
    clearbody k. generalize dependent (Qlen (y :: a)). intros n Hk2 Hn.
    assert (E : k * (50 / n) == (k * 50) / n).
    { field. intro Hz. rewrite Hz in Hn. exact (Qlt_irrefl _ Hn). }
    rewrite E. split.
    + apply Qle_shift_div_l; [exact Hn|]. rewrite Qmult_0_l. lra.
    + apply Qle_shift_div_r; [exact Hn|]. lra.
Qed.

Lemma count_lt_returns_below (col : Stock -> option Q) (df : list Stock) (x : Q) :
  count_lt (dropna (map col df)) x = returns_below col df x.
Proof.
  unfold count_lt, returns_below.
  induction df as [|t df IH]; simpl; [reflexivity|].
  destruct (col t) as [y|]; simpl; [|exact IH].
  destruct (Qlt_le_dec y x) as [Hlt|Hle].
  - apply Qle_bool_false_lt in Hlt. rewrite Hlt. simpl. now rewrite IH.
  - apply Qle_bool_iff in Hle. rewrite Hle. simpl. exact IH.
Qed.

Lemma count_le_returns_at_most (col : Stock -> option Q) (df : list Stock) (x : Q) :
  count_le (dropna (map col df)) x = returns_at_most col df x.
Proof.
  unfold count_le, returns_at_most.
  induction df as [|t df IH]; simpl; [reflexivity|].
  destruct (col t) as [y|]; simpl; [|exact IH].
  destruct (Qlt_le_dec x y) as [Hlt|Hle].
  - apply Qle_bool_false_lt in Hlt. rewrite Hlt. exact IH.
  - apply Qle_bool_iff in Hle. rewrite Hle. simpl. now rewrite IH.
Qed.

Lemma dropna_all_defined (col : Stock -> option Q) (df : list Stock) :
  (forall t, In t df -> col t <> None) ->
  length (dropna (map col df)) = length df.
Proof.
  induction df as [|t df IH]; intro H; simpl; [reflexivity|].
  destruct (col t) eqn:E.
  - simpl. f_equal. apply IH. intros u Hu. apply H. now right.
  - exfalso. apply (H t); [now left|exact E].
Qed.

(** The percentile columns of a scored row are [pct_of] of its stock. *)
Lemma pct_col_spec (tf : Timeframe) (df : list Stock) (r : Ranked) :
  In r (calculate_percentile_scores df) ->
  In (stock r) df /\ pct_col tf r = pct_of (return_col tf) df (stock r).
Proof.
  unfold calculate_percentile_scores. intro H.
  apply in_map_iff in H. destruct H as [s [<- Hs]].
  split; [exact Hs|]. destruct tf; reflexivity.
Qed.

Lemma count_lt_compat (a : list Q) (x y : Q) : x == y -> count_lt a x = count_lt a y.
Proof.
  intro E. unfold count_lt. f_equal. apply filter_ext. intro z.
  f_equal. destruct (Qle_bool x z) eqn:H1, (Qle_bool y z) eqn:H2; try reflexivity.
  - apply Qle_bool_iff in H1. rewrite E in H1. apply Qle_bool_iff in H1. congruence.
  - apply Qle_bool_iff in H2. rewrite <- E in H2. apply Qle_bool_iff in H2. congruence.
Qed.

Lemma count_le_compat (a : list Q) (x y : Q) : x == y -> count_le a x = count_le a y.
Proof.
  intro E. unfold count_le. f_equal. apply filter_ext. intro z.
  destruct (Qle_bool z x) eqn:H1, (Qle_bool z y) eqn:H2; try reflexivity.
  - apply Qle_bool_iff in H1. rewrite E in H1. apply Qle_bool_iff in H1. congruence.
  - apply Qle_bool_iff in H2. rewrite <- E in H2. apply Qle_bool_iff in H2. congruence.
Qed.

(** C1. The percentile scorer is the mean-rank percentile: when a
    timeframe's returns are all defined, the row of a snapshot with return
    [x] carries [100 * (#{y < x} + #{y <= x}) / (2 * n)], [n] the number of
    snapshots; the one-month percentiles of the five-ticker example are
    10, 30, 50, 70 and 90; and equal returns receive equal percentiles. *)
Theorem C1_mean_rank_percentile
  (df : list Stock) (tf : Timeframe) (r : Ranked) (x : Q)
  (Hdefined : forall t, In t df -> return_col tf t <> None)
  (Hrow : In r (calculate_percentile_scores df))
  (Hx : return_col tf (stock r) = Some x) :
  (exists p, pct_col tf r = Some p /\ p == mean_rank (return_col tf) df x) /\
  map (fun r => option_map Qred (Pct_1M r)) (calculate_percentile_scores example_df)
    = [Some 10; Some 30; Some 50; Some 70; Some 90] /\
  (forall r' y, In r' (calculate_percentile_scores df) ->
                return_col tf (stock r') = Some y -> x == y ->
                exists p q, pct_col tf r = Some p /\ pct_col tf r' = Some q /\ p == q).
Proof.
  destruct (pct_col_spec tf df r Hrow) as [Hin Hp].
  assert (Hpx : pct_col tf r =
                Some (percentileofscore (dropna (map (return_col tf) df)) x)).
  { rewrite Hp. unfold pct_of. now rewrite Hx. }
  split; [|split].
  - eexists. split; [exact Hpx|].
    unfold percentileofscore, mean_rank.
    rewrite count_lt_returns_below, count_le_returns_at_most.
    assert (Hlen : Qlen (dropna (map (return_col tf) df)) = Qlen df).
    { unfold Qlen. now rewrite dropna_all_defined. }
    rewrite Hlen.
    assert (Hn : 0 < Qlen df).
    { apply Qlen_pos. intro E. rewrite E in Hin. exact Hin. }
    field. intro Hz. rewrite Hz in Hn. exact (Qlt_irrefl _ Hn).
  - vm_compute. reflexivity.
  - intros r' y Hr' Hy Exy.
    destruct (pct_col_spec tf df r' Hr') as [_ Hq].
    do 2 eexists. split; [exact Hpx|]. split.
    + rewrite Hq. unfold pct_of. rewrite Hy. reflexivity.
    + unfold percentileofscore.
      rewrite (count_lt_compat _ x y Exy), (count_le_compat _ x y Exy).
      reflexivity.
Qed.

Lemma C1_mean_rank_percentile_witness :
  exists p, pct_col TF_1M (nth 0 (calculate_percentile_scores example_df)
                               (mkRanked (example_stock "D" 0) None None None None))
            = Some p /\
            p == mean_rank (return_col TF_1M) example_df (2 # 100).
Proof.
  refine (proj1 (C1_mean_rank_percentile example_df TF_1M _ (2 # 100) _ _ _)).
  - intros t Ht. simpl in Ht.
    repeat (destruct Ht as [<-|Ht]; [discriminate|]). contradiction.
  - simpl. left. reflexivity.
  - reflexivity.
Defined.

(** ** Composite score *)

Lemma pct_of_bounds (col : Stock -> option Q) (df : list Stock) (s : Stock) (p : Q) :
  pct_of col df s = Some p -> 0 <= p /\ p <= 100.
Proof.
  unfold pct_of. destruct (col s); [|discriminate].
  intro H. injection H as <-. apply percentileofscore_bounds.
Qed.

Lemma pct_col_bounds (tf : Timeframe) (df : list Stock) (r : Ranked) (p : Q) :
  In r (calculate_percentile_scores df) -> pct_col tf r = Some p ->
  0 <= p /\ p <= 100.
Proof.
  intros Hr Hp. destruct (pct_col_spec tf df r Hr) as [_ E].
  rewrite E in Hp. exact (pct_of_bounds _ _ _ _ Hp).
Qed.

(** C7. For a row whose four percentiles are defined, [HQM_Score] is their
    arithmetic mean, [Min_Percentile] is their minimum, and
    0 <= Min_Percentile <= HQM_Score <= 100. *)
Theorem C7_composite_score
  (df : list Stock) (s : Scored) (p1 p2 p3 p4 : Q)
  (Hrow : In s (calculate_hqm_score (calculate_percentile_scores df)))
  (H1 : Pct_1M (ranked s) = Some p1) (H2 : Pct_3M (ranked s) = Some p2)
  (H3 : Pct_6M (ranked s) = Some p3) (H4 : Pct_1Y (ranked s) = Some p4) :
  exists h m,
    HQM_Score s = Some h /\ Min_Percentile s = Some m /\
    h == (p1 + p2 + p3 + p4) / 4 /\
    m = Qmin (Qmin (Qmin p1 p2) p3) p4 /\
    0 <= m /\ m <= h /\ h <= 100.
Proof.
  unfold calculate_hqm_score in Hrow. apply in_map_iff in Hrow.
  destruct Hrow as [r [<- Hr]]. simpl in *.
  destruct (pct_col_bounds TF_1M df r p1 Hr H1) as [L1 U1].
  destruct (pct_col_bounds TF_3M df r p2 Hr H2) as [L2 U2].
  destruct (pct_col_bounds TF_6M df r p3 Hr H3) as [L3 U3].
  destruct (pct_col_bounds TF_1Y df r p4 Hr H4) as [L4 U4].
  unfold percentile_columns. rewrite H1, H2, H3, H4.
  exists ((p1 + (p2 + (p3 + (p4 + 0)))) / Qlen [p1; p2; p3; p4]).
  exists (Qmin (Qmin (Qmin p1 p2) p3) p4).
  split; [reflexivity|]. split; [reflexivity|].
  assert (E : (p1 + (p2 + (p3 + (p4 + 0)))) / Qlen [p1; p2; p3; p4]
              == (p1 + p2 + p3 + p4) / 4).
  { change (Qlen [p1; p2; p3; p4]) with 4. field. }
  split; [exact E|]. split; [reflexivity|].
  rewrite E.
  set (m := Qmin (Qmin (Qmin p1 p2) p3) p4).
  assert (M4 : m <= p4) by apply Q.le_min_r.
  assert (M3 : m <= p3).
  { eapply Qle_trans; [apply Q.le_min_l|]. apply Q.le_min_r. }
  assert (M2 : m <= p2).
  { eapply Qle_trans; [apply Q.le_min_l|].
    eapply Qle_trans; [apply Q.le_min_l|]. apply Q.le_min_r. }
  assert (M1 : m <= p1).
  { eapply Qle_trans; [apply Q.le_min_l|].
    eapply Qle_trans; [apply Q.le_min_l|]. apply Q.le_min_l. }
  assert (M0 : 0 <= m).
  { unfold m. repeat apply Q.min_glb; assumption. }
  clearbody m.
  split; [exact M0|]. split.
  - apply Qle_shift_div_l; [reflexivity|]. lra.
  - apply Qle_shift_div_r; [reflexivity|]. lra.
Qed.

Lemma C7_composite_score_witness :
  exists h m,
    HQM_Score (nth 0 example_scored default_scored) = Some h /\
    Min_Percentile (nth 0 example_scored default_scored) = Some m /\
    h == ((50 # 5) + (50 # 5) + (50 # 5) + (50 # 5)) / 4 /\
    m = Qmin (Qmin (Qmin (50 # 5) (50 # 5)) (50 # 5)) (50 # 5) /\
    0 <= m /\ m <= h /\ h <= 100.
Proof.
  apply (C7_composite_score example_df).
  - left. reflexivity.
  - reflexivity.
  - reflexivity.
  - reflexivity.
  - reflexivity.
Defined.

(** ** Quality filter *)

Lemma filter_idem {A} (f : A -> bool) (l : list A) :
  filter f (filter f l) = filter f l.
Proof.
  induction l as [|a l IH]; simpl; [reflexivity|].
  destruct (f a) eqn:E; simpl; [rewrite E, IH|]; auto.
Qed.

(** C8. The quality filter removes exactly the rows whose [Min_Percentile]
    is below the threshold (25 in the scan), and applying it to its own
    output changes nothing. *)
Theorem C8_quality_filter
  (threshold : Q) (df : list Scored) (s : Scored) (m : Q)
  (Hin : In s df) (Hm : Min_Percentile s = Some m) :
  (~ In s (quality_filter threshold df) <-> m < threshold) /\
  quality_filter threshold (quality_filter threshold df)
    = quality_filter threshold df /\
  quality_threshold = 25.
Proof.
  split; [|split; [apply filter_idem|reflexivity]].
  unfold quality_filter. rewrite filter_In. unfold ge_threshold. rewrite Hm.
  split.
  - intro H. apply Qle_bool_false_lt.
    destruct (Qle_bool threshold m); [exfalso; apply H; auto|reflexivity].
  - intros H [_ Hle]. apply Qle_bool_false_lt in H. congruence.
Qed.

Lemma C8_quality_filter_witness :
  (~ In (nth 0 example_scored default_scored)
        (quality_filter 25 example_scored) <-> (50 # 5) < 25) /\
  quality_filter 25 (quality_filter 25 example_scored)
    = quality_filter 25 example_scored /\
  quality_threshold = 25.
Proof.
  apply (C8_quality_filter 25 example_scored).
  - left. reflexivity.
  - reflexivity.
Defined.

(** ** Rounding *)

Lemma rint_error (q : Q) : Qabs (inject_Z (rint q) - q) <= 1 # 2.
Proof.
  unfold rint.
  pose proof (Qfloor_le q) as Hlo.
  pose proof (Qlt_floor q) as Hhi.
  rewrite inject_Z_plus in Hhi. change (inject_Z 1) with 1 in Hhi.
  set (f := Qfloor q) in *.
  apply Qabs_Qle_condition.
  destruct (Qcompare (q - inject_Z f) (1 # 2)) eqn:C.
  - apply Qeq_alt in C.
    destruct (Z.even f); [|rewrite inject_Z_plus; change (inject_Z 1) with 1];
      split; lra.
  - apply Qlt_alt in C. split; lra.
  - apply Qgt_alt in C. rewrite inject_Z_plus. change (inject_Z 1) with 1.
    split; lra.
Qed.

Lemma pow10_pos (n : nat) : 0 < pow10 n.
Proof.
  unfold pow10. change 0 with (inject_Z 0). rewrite <- Zlt_Qlt.
  apply Z.pow_pos_nonneg; lia.
Qed.

(** Rounding to [n] places moves a value by at most half a unit of the last
    place. *)
Lemma round_nd_error (n : nat) (q : Q) :
  Qabs (round_nd n q - q) <= (1 # 2) / pow10 n.
Proof.
  unfold round_nd.
  pose proof (pow10_pos n) as Hp.
  pose proof (rint_error (q * pow10 n)) as He.
  set (z := inject_Z (rint (q * pow10 n))) in *.
  set (t := pow10 n) in *. clearbody z t.
  apply Qabs_Qle_condition in He. destruct He as [He1 He2].
  assert (Ht : ~ t == 0) by (intro Hz; rewrite Hz in Hp; exact (Qlt_irrefl _ Hp)).
  assert (E : z / t - q == (z - q * t) / t) by (field; exact Ht).
  rewrite E. apply Qabs_Qle_condition. split.
  - apply Qle_shift_div_l; [exact Hp|].
    assert (E2 : - ((1 # 2) / t) * t == - (1 # 2)) by (field; exact Ht).
    rewrite E2. exact He1.
  - apply Qle_shift_div_r; [exact Hp|].
    assert (E2 : (1 # 2) / t * t == 1 # 2) by (field; exact Ht).
    rewrite E2. exact He2.
Qed.


(** ** Position sizing *)




Lemma shares_for_spec (allocation price : Q) :
  shares_for allocation price =
  if Qlt_le_dec 0 price then Qfloor (allocation / price) else 0%Z.
Proof.
  unfold shares_for. destruct (Qlt_le_dec 0 price) as [Hp|Hp].
  - apply Qle_bool_false_lt in Hp. now rewrite Hp.
  - apply Qle_bool_iff in Hp. now rewrite Hp.
Qed.


Lemma size_rows_rows {A} (price : A -> Q) (a n : Q) (df : list A) :
  map row (map (size_row price a n) df) = df.
Proof.
  rewrite map_map. simpl. apply map_id.
Qed.



(** ** Sorting and candidate selection *)

Lemma desc_b_true (a b : option Q) : desc_b a b = true -> desc a b.
Proof.
  destruct a, b; simpl; intro H; try exact I; try discriminate.
  now apply Qle_bool_iff.
Qed.

Lemma desc_b_false (a b : option Q) : desc_b a b = false -> desc b a.
Proof.
  destruct a, b; simpl; intro H; try exact I; try discriminate.
  apply Qle_bool_false_lt in H. now apply Qlt_le_weak.
Qed.

Lemma desc_trans (a b c : option Q) : desc a b -> desc b c -> desc a c.
Proof.
  destruct a, b, c; simpl; try tauto. intros H1 H2. eapply Qle_trans; eauto.
Qed.

Lemma hqm_desc_trans : Relations_1.Transitive hqm_desc.
Proof. intros x y z. apply desc_trans. Qed.

Section InsertionSort.

Variable before : Scored -> Scored -> bool.
Hypothesis before_true : forall x y, before x y = true -> hqm_desc x y.
Hypothesis before_false : forall x y, before x y = false -> hqm_desc y x.

Lemma insert_by_perm (x : Scored) (l : list Scored) :
  Permutation (x :: l) (insert_by before x l).
Proof.
  induction l as [|y l IH]; simpl; [apply Permutation_refl|].
  destruct (before x y); [apply Permutation_refl|].
  eapply perm_trans; [apply perm_swap|]. now apply perm_skip.
Qed.

Lemma insert_by_hd (x y : Scored) (l : list Scored) :
  hqm_desc y x -> HdRel hqm_desc y l -> HdRel hqm_desc y (insert_by before x l).
Proof.
  intros Hyx Hl. destruct l as [|z l]; simpl.
  - now constructor.
  - destruct (before x z); constructor; [exact Hyx|].
    now inversion Hl.
Qed.

Lemma insert_by_sorted (x : Scored) (l : list Scored) :
  Sorted hqm_desc l -> Sorted hqm_desc (insert_by before x l).
Proof.
  induction l as [|y l IH]; intro Hs; simpl.
  - repeat constructor.
  - destruct (before x y) eqn:E.
    + constructor; [exact Hs|]. constructor. now apply before_true.
    + inversion Hs as [|? ? Hl Hhd]; subst.
      constructor; [now apply IH|].
      apply insert_by_hd; [now apply before_false|exact Hhd].
Qed.

Lemma sort_by_ok : sort_values_ok (sort_by before).
Proof.
  intro df. unfold sort_by. induction df as [|x df [IHp IHs]]; simpl.
  - split; constructor.
  - split.
    + eapply perm_trans; [apply perm_skip, IHp|apply insert_by_perm].
    + now apply insert_by_sorted.
Qed.

End InsertionSort.

Lemma sort_stable_ok : sort_values_ok sort_stable.
Proof.
  apply sort_by_ok; intros x y H.
  - now apply desc_b_true.
  - now apply desc_b_false.
Qed.

Lemma StronglySorted_app_l {A} (R : A -> A -> Prop) (l1 l2 : list A) :
  StronglySorted R (l1 ++ l2) -> StronglySorted R l1.
Proof.
  induction l1 as [|a l1 IH]; simpl; intro H; [constructor|].
  inversion H as [|? ? Hs Hall]; subst. constructor; [now apply IH|].
  apply Forall_app in Hall. tauto.
Qed.


Lemma py_int_floor (q : Q) : 0 <= q -> py_int q = Qfloor q.
Proof.
  destruct q as [n d]. unfold Qle, py_int, Qfloor. simpl. intro H.
  apply Z.quot_div_nonneg; lia.
Qed.

Lemma head_nonneg {A} (n : Z) (l : list A) :
  (0 <= n)%Z -> head n l = firstn (Z.to_nat n) l.
Proof.
  intro H. unfold head. apply Z.leb_le in H. now rewrite H.
Qed.

(** A prefix of a frame in descending order is in descending order. *)
Lemma head_sorted (n : Z) (l : list Scored) :
  Sorted hqm_desc l -> Sorted hqm_desc (head n l).
Proof.
  intro H. apply Sorted_StronglySorted in H; [|exact hqm_desc_trans].
  apply StronglySorted_Sorted. unfold head.
  destruct (0 <=? n)%Z.
  - rewrite <- (firstn_skipn (Z.to_nat n) l) in H.
    exact (StronglySorted_app_l _ _ _ H).
  - rewrite <- (firstn_skipn (length l - Z.to_nat (- n)) l) in H.
    exact (StronglySorted_app_l _ _ _ H).
Qed.

Lemma candidates_count_floor (mx : option Q) (n : Z) (len : nat) :
  (0 <= n)%Z ->
  candidates_count mx n len
  = Z.min (Qfloor (inject_Z n * candidates_multiplier mx)) (Z.of_nat len)
  /\ (0 <= candidates_count mx n len <= Z.of_nat len)%Z.
Proof.
  intro Hn. unfold candidates_count.
  assert (Hq : 0 <= inject_Z n * candidates_multiplier mx).
  { apply Qmult_le_0_compat.
    - change 0 with (inject_Z 0). now rewrite <- Zle_Qle.
    - destruct mx; discriminate. }
  rewrite (py_int_floor _ Hq). split; [reflexivity|].
  pose proof (Qfloor_resp_le _ _ Hq) as Hf. change (Qfloor 0) with 0%Z in Hf.
  lia.
Qed.




(** ** Trend-extension filter *)

Lemma cand_desc_trans : Relations_1.Transitive cand_desc.
Proof. intros x y z. apply desc_trans. Qed.

Lemma StronglySorted_filter {A} (R : A -> A -> Prop) (f : A -> bool) (l : list A) :
  StronglySorted R l -> StronglySorted R (filter f l).
Proof.
  induction 1 as [|a l Hs IH Hall]; simpl; [constructor|].
  destruct (f a); [|exact IH]. constructor; [exact IH|].
  rewrite Forall_forall in *. intros x Hx. apply filter_In in Hx. now apply Hall.
Qed.

Lemma head_prefix {A} (n : Z) (l : list A) : exists rest, l = head n l ++ rest.
Proof.
  unfold head. destruct (0 <=? n)%Z; eexists; symmetry; apply firstn_skipn.
Qed.

Lemma Sorted_prefix {A} (R : A -> A -> Prop) (l1 l2 : list A) :
  Relations_1.Transitive R -> Sorted R (l1 ++ l2) -> Sorted R l1.
Proof.
  intros Ht H. apply StronglySorted_Sorted.
  apply (StronglySorted_app_l R l1 l2). now apply Sorted_StronglySorted.
Qed.

Lemma add_sma10_sorted (d : dict) (df : list Scored) :
  Sorted hqm_desc df -> Sorted cand_desc (add_sma10 d df).
Proof.
  unfold add_sma10. induction 1 as [|a l Hs IH Hhd]; simpl; constructor.
  - exact IH.
  - destruct Hhd; simpl; constructor. assumption.
Qed.

(** The pool handed to the trend filter by the scan is in descending order. *)
Lemma scan_selection_sorted
  (sort_values : list Scored -> list Scored) (download : list string -> Download)
  (stocks : list Stock) (n : Z) (mx : option Q) :
  sort_values_ok sort_values ->
  Sorted cand_desc (scan_selection sort_values download stocks n mx).
Proof.
  intro Hsort. unfold scan_selection.
  match goal with |- Sorted _ (head n (sma10_filter mx ?p)) => set (pool := p) end.
  assert (Hp : Sorted cand_desc pool).
  { unfold pool. apply add_sma10_sorted. unfold select_candidates.
    apply head_sorted. apply Hsort. }
  assert (Hf : Sorted cand_desc (sma10_filter mx pool)).
  { destruct mx; simpl; [|exact Hp].
    apply StronglySorted_Sorted, StronglySorted_filter.
    apply Sorted_StronglySorted; [exact cand_desc_trans|exact Hp]. }
  destruct (head_prefix n (sma10_filter mx pool)) as [rest E].
  rewrite E in Hf. exact (Sorted_prefix _ _ _ cand_desc_trans Hf).
Qed.

(** C5. With the filter enabled at threshold [m]: a candidate without a
    distance is never removed; a candidate with a distance is removed exactly
    when the distance exceeds [m]; the selection is the filtered pool cut to
    its first num_positions rows, and a pool in descending HQM_Score order
    gives a selection in descending HQM_Score order. *)
Theorem C5_trend_filter (m : Q) (n : Z) (pool : list Candidate) :
  (forall c, In c pool -> SMA10_Distance c = None ->
             In c (sma10_filter (Some m) pool)) /\
  (forall c d, In c pool -> SMA10_Distance c = Some d ->
               (~ In c (sma10_filter (Some m) pool) <-> m < d)) /\
  (exists rest, sma10_filter (Some m) pool
                = head n (sma10_filter (Some m) pool) ++ rest) /\
  ((0 <= n)%Z ->
   length (head n (sma10_filter (Some m) pool))
   = Nat.min (Z.to_nat n) (length (sma10_filter (Some m) pool))) /\
  (Sorted cand_desc pool ->
   Sorted cand_desc (head n (sma10_filter (Some m) pool))) /\
  (forall sort_values download stocks,
      sort_values_ok sort_values ->
      Sorted cand_desc (scan_selection sort_values download stocks n (Some m))).
Proof.
  split; [|split; [|split; [|split; [|split]]]].
  - intros c Hc Hd. simpl. apply filter_In. split; [exact Hc|].
    unfold within_trend. now rewrite Hd.
  - intros c d Hc Hd. simpl. rewrite filter_In. unfold within_trend. rewrite Hd.
    split.
    + intro H. apply Qle_bool_false_lt.
      destruct (Qle_bool d m); [exfalso; apply H; auto|reflexivity].
    + intros H [_ Hle]. apply Qle_bool_false_lt in H. congruence.
  - apply head_prefix.
  - intro Hn. rewrite head_nonneg by exact Hn. apply length_firstn.
  - intro Hp.
    assert (Hf : Sorted cand_desc (sma10_filter (Some m) pool)).
    { simpl. apply StronglySorted_Sorted, StronglySorted_filter.
      apply Sorted_StronglySorted; [exact cand_desc_trans|exact Hp]. }
    destruct (head_prefix n (sma10_filter (Some m) pool)) as [rest E].
    rewrite E in Hf. exact (Sorted_prefix _ _ _ cand_desc_trans Hf).
  - intros. now apply scan_selection_sorted.
Qed.

Lemma C5_trend_filter_witness :
  In (nth 1 example_pool default_candidate) (sma10_filter (Some 5) example_pool) /\
  (~ In (nth 0 example_pool default_candidate) (sma10_filter (Some 5) example_pool)
   <-> 5 < 12) /\
  length (head 1 (sma10_filter (Some 5) example_pool))
  = Nat.min (Z.to_nat 1) (length (sma10_filter (Some 5) example_pool)) /\
  Sorted cand_desc (head 1 (sma10_filter (Some 5) example_pool)) /\
  Sorted cand_desc
    (scan_selection sort_stable (fun _ => DownloadError) tie_df 1 (Some 5)).
Proof.
  destruct (C5_trend_filter 5 1 example_pool) as (H1 & H2 & _ & H4 & H5 & H6).
  split; [|split; [|split; [|split]]].
  - apply H1; [right; left; reflexivity|reflexivity].
  - apply H2; [left; reflexivity|reflexivity].
  - apply H4. lia.
  - apply H5. repeat constructor. vm_compute. discriminate.
  - apply H6. exact sort_stable_ok.
Defined.

(** ** Failure modes of the scan *)

(** The scan, in terms of its selection. *)
Lemma run_hqm_scan_from_db_selection
  (sort_values : list Scored -> list Scored) (download : list string -> Download)
  (stocks : list Stock) (P : Q) (n : Z) (mx : option Q) :
  stocks <> [] ->
  scan_selection sort_values download stocks n mx = [] ->
  run_hqm_scan_from_db sort_values download stocks P n mx = ZeroDivisionError.
Proof.
  intros Hne Hsel. destruct stocks as [|s stocks]; [congruence|].
  unfold run_hqm_scan_from_db. unfold scan_selection in Hsel.
  cbv zeta. rewrite Hsel. reflexivity.
Qed.

(** C2 (the code at the failing inputs).  An empty table gives the failure
    result [NoData]; a table whose rows all fail the quality filter, and a
    table whose only candidate is removed by the trend filter, end in the
    [ZeroDivisionError] of [portfolio_size / len(df)]. *)
Theorem C2_empty_selection_raises :
  run_hqm_scan_from_db sort_stable no_download [] 10000 8 None = NoData /\
  quality_filter quality_threshold
    (calculate_hqm_score (calculate_percentile_scores low_df)) = [] /\
  run_hqm_scan_from_db sort_stable no_download low_df 10000 8 None
    = ZeroDivisionError /\
  length (quality_filter quality_threshold
            (calculate_hqm_score (calculate_percentile_scores [example_stock "A" (5 # 100)])))
    = 1%nat /\
  run_hqm_scan_from_db sort_stable extended_download
    [example_stock "A" (5 # 100)] 10000 8 (Some 5) = ZeroDivisionError.
Proof.
  repeat split; vm_compute; reflexivity.
Qed.

(** ** Request validation *)

(** C6 (counterexample).  With an empty table a request with
    portfolio_size = 500 and num_positions = 0 is answered with the no-data
    failure, which is not a validation failure; and the scan function called
    with num_positions = 51 validates nothing and returns a result. *)
Lemma C6_validation_counterexample :
  start_scan 0 idle 500 0 = (NoDataAvailable, idle) /\
  is_validation_error (fst (start_scan 0 idle 500 0)) = false /\
  start_scan 7 scanning 500 0 = (OperationInProgress, scanning) /\
  exists results summary,
    run_hqm_scan_from_db sort_stable no_download
      [example_stock "A" (5 # 100)] 10000 51 None = Success results summary /\
    length results = 1%nat.
Proof.
  split; [reflexivity|]. split; [reflexivity|]. split; [reflexivity|].
  eexists. eexists. split; [vm_compute; reflexivity|reflexivity].
Qed.

(** C6 (as amended).  When the table holds stocks and no refresh or scan is
    in progress, a request with portfolio_size < 1000 or num_positions
    outside 1..50 is answered with a validation failure and the scan is not
    started (the status is left as it was); a request within the bounds
    starts the scan. *)
Theorem C6_request_validation
  (stock_count : nat) (status : Status) (P : Q) (n : Z)
  (Hdata : stock_count <> 0%nat) (Hidle : busy status = false) :
  ((P < 1000 \/ (n < 1)%Z \/ (50 < n)%Z) ->
   is_validation_error (fst (start_scan stock_count status P n)) = true /\
   snd (start_scan stock_count status P n) = status) /\
  (P < 1000 -> fst (start_scan stock_count status P n) = PortfolioSizeTooSmall) /\
  ((1000 <= P /\ (1 <= n <= 50)%Z) ->
   start_scan stock_count status P n = (ScanStarted, scanning)).
Proof.
  unfold start_scan.
  apply Nat.eqb_neq in Hdata. rewrite Hdata, Hidle.
  destruct (Qle_bool 1000 P) eqn:EP; simpl.
  - apply Qle_bool_iff in EP.
    destruct ((n <? 1)%Z || (50 <? n)%Z) eqn:En; simpl.
    + split; [auto|]. split.
      * intro H. exfalso. exact (Qlt_not_le _ _ H EP).
      * intros [_ Hn]. apply orb_true_iff in En.
        destruct En as [En|En]; apply Z.ltb_lt in En; lia.
    + apply orb_false_iff in En. destruct En as [E1 E2].
      apply Z.ltb_ge in E1. apply Z.ltb_ge in E2.
      split; [|split; [|reflexivity]].
      * intros [H|[H|H]]; [exfalso; exact (Qlt_not_le _ _ H EP)|lia|lia].
      * intro H. exfalso. exact (Qlt_not_le _ _ H EP).
  - apply Qle_bool_false_lt in EP.
    split; [auto|]. split; [reflexivity|].
    intros [H _]. exfalso. exact (Qlt_not_le _ _ EP H).
Qed.

(** With an empty table the first guard answers, whatever the request. *)
Lemma start_scan_empty_table (status : Status) (P : Q) (n : Z) :
  start_scan 0 status P n = (NoDataAvailable, status).
Proof. reflexivity. Qed.

Lemma C6_request_validation_witness :
  (is_validation_error (fst (start_scan 7 idle 500 8)) = true /\
   snd (start_scan 7 idle 500 8) = idle) /\
  fst (start_scan 7 idle 500 8) = PortfolioSizeTooSmall /\
  start_scan 7 idle 10000 8 = (ScanStarted, scanning).
Proof.
  assert (Hdata : 7%nat <> 0%nat) by discriminate.
  destruct (C6_request_validation 7 idle 500 8 Hdata eq_refl) as (H1 & H2 & _).
  destruct (C6_request_validation 7 idle 10000 8 Hdata eq_refl) as (_ & _ & H3).
  split; [|split].
  - apply H1. left. reflexivity.
  - apply H2. reflexivity.
  - apply H3. split; [discriminate|lia].
Defined.

(** ** Output rounding *)

Lemma round_nd_rounded (n : nat) (q : Q) : rounded_to n q (round_nd n q).
Proof.
  split; [|apply round_nd_error].
  exists (rint (q * pow10 n)). reflexivity.
Qed.

Lemma round_opt_rounded (n : nat) (x : option Q) : rounded_opt n x (round_opt n x).
Proof.
  destruct x; simpl; [apply round_nd_rounded|exact I].
Qed.

Lemma Forall2_map_r {A B} (R : A -> B -> Prop) (f : A -> B) (l : list A) :
  (forall a, R a (f a)) -> Forall2 R l (map f l).
Proof.
  intro H. induction l; simpl; constructor; auto.
Qed.

Lemma round_values_rounded (p : Sized Candidate) :
  rounded_position p (round_values p).
Proof.
  unfold rounded_position, round_values, scored_stock. simpl.
  repeat split; try apply round_opt_rounded; try apply round_nd_error;
    eexists; reflexivity.
Qed.

(** C9 (counterexample).  The command-line run on one snapshot with return
    0.1234 and price 3.3337: the return comes out as 0.12 (3/25), which is not
    0.1234 rounded to four places, and the position value 9997.7663 comes
    out unrounded. *)
Lemma C9_cli_rounding_counterexample :
  exists out,
    run_hqm_strategy sort_stable cli_df 10000 8 = Some [out] /\
    option_map Qred (Return_1M (scored_stock (row out))) = Some (3 # 25) /\
    ~ rounded_opt 4 (Some (1234 # 10000)) (Return_1M (scored_stock (row out))) /\
    Qred (Value out) = 99977663 # 10000 /\
    ~ Value out == round_nd 2 (Value out).
Proof.
  eexists. split; [vm_compute; reflexivity|].
  split; [vm_compute; reflexivity|].
  split; [|split; [vm_compute; reflexivity|]].
  - intros [_ H]. vm_compute in H. apply H. reflexivity.
  - intro H. vm_compute in H. discriminate H.
Qed.

(** C9 (as amended).  Every result of the scan is the sized selection with
    returns rounded to 4 places, percentiles and HQM_Score to 1 place, weight
    to 1 place and value to 2 places, and its summary carries total_invested
    and cash_remaining rounded to 2 places; the command-line run rounds
    returns to 2 places, percentiles and the score to 1 place, and leaves
    weight and value as computed. *)
Theorem C9_output_rounding
  (sort_values : list Scored -> list Scored) (download : list string -> Download)
  (stocks : list Stock) (P : Q) (n : Z) (mx : option Q)
  (results : list (Sized Candidate)) (summary : Summary)
  (Hrun : run_hqm_scan_from_db sort_values download stocks P n mx
          = Success results summary) :
  (exists sized,
      size_rows candidate_price
        (scan_selection sort_values download stocks n mx) P = Some sized /\
      Forall2 rounded_position sized results /\
      rounded_to 2 (total_invested_of sized) (total_invested summary) /\
      rounded_to 2 (P - total_invested_of sized) (cash_remaining summary)) /\
  (forall df : list (Sized Scored),
      Forall2 cli_rounded_position df (prepare_output_dataframe df)).
Proof.
  split.
  - destruct stocks as [|s stocks]; [discriminate|].
    unfold run_hqm_scan_from_db in Hrun. cbv zeta in Hrun.
    unfold scan_selection. cbv zeta.
    match type of Hrun with
    | match ?e with _ => _ end = _ => destruct e as [sized|] eqn:E
    end; [|discriminate].
    injection Hrun as <- <-. exists sized.
    split; [reflexivity|]. split; [|split].
    + apply Forall2_map_r. exact round_values_rounded.
    + simpl. apply round_nd_rounded.
    + simpl. apply round_nd_rounded.
  - intro df. unfold prepare_output_dataframe. apply Forall2_map_r.
    intro p. unfold cli_rounded_position, scored_stock. simpl.
    repeat split; apply round_opt_rounded.
Qed.

Lemma C9_output_rounding_witness :
  (exists sized,
      size_rows candidate_price
        (scan_selection sort_stable no_download
           [example_stock "A" (5 # 100)] 8 None) 10000 = Some sized /\
      Forall2 rounded_position sized scan_example_results /\
      rounded_to 2 (total_invested_of sized) (total_invested scan_example_summary) /\
      rounded_to 2 (10000 - total_invested_of sized)
        (cash_remaining scan_example_summary)) /\
  (forall df : list (Sized Scored),
      Forall2 cli_rounded_position df (prepare_output_dataframe df)).
Proof.
  apply (C9_output_rounding sort_stable no_download
           [example_stock "A" (5 # 100)] 10000 8 None).
  vm_compute. reflexivity.
Defined.

(** ** Distance to the ten-day moving average *)

Lemma dropna_map_Some (l : list Q) : dropna (map Some l) = l.
Proof. induction l; simpl; congruence. Qed.

Lemma all_defined_map_Some (l : list Q) : all_defined (map Some l) = true.
Proof. induction l; simpl; auto. Qed.

Lemma lastn_map {A B} (f : A -> B) (n : nat) (l : list A) :
  lastn n (map f l) = map f (lastn n l).
Proof. unfold lastn. now rewrite length_map, skipn_map. Qed.

Lemma last_map_Some (l : list Q) :
  l <> [] -> last (map Some l) None = Some (last l 0).
Proof.
  induction l as [|a l IH]; [congruence|]. intros _.
  destruct l as [|b l]; [reflexivity|].
  change (last (map Some (a :: b :: l)) None) with (last (map Some (b :: l)) None).
  change (last (a :: b :: l) 0) with (last (b :: l) 0).
  apply IH. discriminate.
Qed.

(** On a column without NaN and with ten closes or more, the shared body
    stores the rounded distance exactly when the average is positive. *)
Lemma sma10_entry_valid (closes : list Q) :
  (10 <= length closes)%nat ->
  sma10_entry (map Some closes)
  = if Qle_bool (sma10_of closes) 0 then None
    else Some (round_nd 2 ((last closes 0 - sma10_of closes) / sma10_of closes * 100)).
Proof.
  intro Hlen. unfold sma10_entry, rolling10_last.
  rewrite length_map.
  assert (E : (length closes <? 10)%nat = false) by (apply Nat.ltb_ge; exact Hlen).
  rewrite E, lastn_map, all_defined_map_Some, dropna_map_Some.
  rewrite last_map_Some by (intro H; rewrite H in Hlen; simpl in Hlen; lia).
  reflexivity.
Qed.

Lemma dict_get_set_same (d : dict) (k : string) (v : Q) :
  dict_get (dict_set d k v) k = Some v.
Proof.
  induction d as [|[k' v'] d IH]; simpl.
  - now rewrite String.eqb_refl.
  - destruct (String.eqb k' k) eqn:E; simpl.
    + now rewrite String.eqb_refl.
    + now rewrite E.
Qed.

(** The several-ticker branch: a ticker with a column gets an entry exactly
    when it has ten valid closes or more and a positive ten-day average, and
    the entry is the distance rounded to 2 places. *)
Lemma multi_ticker_spec (data : Frame) (ticker : string) (results : dict)
  (col : Column) :
  close_of data ticker = Some col ->
  dict_get results ticker = None ->
  dict_get (multi_ticker data ticker results) ticker
  = if ((10 <=? length (dropna col))%nat
        && negb (Qle_bool (sma10_of (dropna col)) 0))%bool
    then Some (round_nd 2 ((last (dropna col) 0 - sma10_of (dropna col))
                           / sma10_of (dropna col) * 100))
    else None.
Proof.
  intros Hcol Hres. unfold multi_ticker. rewrite Hcol. cbv zeta.
  rewrite length_map.
  destruct (10 <=? length (dropna col))%nat eqn:E; simpl; [|exact Hres].
  apply Nat.leb_le in E. rewrite (sma10_entry_valid _ E).
  destruct (Qle_bool (sma10_of (dropna col)) 0); simpl; [exact Hres|].
  apply dict_get_set_same.
Qed.

(** C10 (the code at the failing input).  A ticker whose frame has ten
    closes of 10 and then a row without a close has ten valid closes and a
    ten-day average of 10; asked for alone it gets no entry, asked for with a
    second ticker it gets the entry 0. *)
Theorem C10_single_ticker_batch_drops_valid_history :
  length (dropna nan_tail_column) = 10%nat /\
  sma10_of (dropna nan_tail_column) == 10 /\
  get_sma10_distance nan_tail_download ["AAA"%string] = [] /\
  map (fun kv => (fst kv, Qred (snd kv)))
      (get_sma10_distance nan_tail_download ["AAA"; "BBB"]%string)
  = [("AAA"%string, 0); ("BBB"%string, 0)].
Proof.
  repeat split; vm_compute; reflexivity.
Qed.

(** * Further properties of the code *)

(** ** Data collection *)

Lemma existsb_eqb_In (t : string) (seen : list string) :
  existsb (String.eqb t) seen = true <-> In t seen.
Proof.
  rewrite existsb_exists. split.
  - intros [x [Hx E]]. apply String.eqb_eq in E. now subst.
  - intro H. exists t. split; [exact H|apply String.eqb_refl].
Qed.

Lemma drop_duplicates_from_In (seen : list string) (df : list Stock) (s : Stock) :
  In s (drop_duplicates_from seen df) -> In s df /\ ~ In (Ticker s) seen.
Proof.
  revert seen. induction df as [|a df IH]; intros seen H; simpl in *; [contradiction|].
  destruct (existsb (String.eqb (Ticker a)) seen) eqn:E.
  - destruct (IH _ H). auto.
  - destruct H as [<-|H].
    + split; [now left|]. intro Hin. apply existsb_eqb_In in Hin. congruence.
    + destruct (IH _ H) as [H1 H2]. split; [now right|].
      intro Hin. apply H2. now right.
Qed.

Lemma drop_duplicates_from_NoDup (seen : list string) (df : list Stock) :
  NoDup (map Ticker (drop_duplicates_from seen df)).
Proof.
  revert seen. induction df as [|a df IH]; intro seen; simpl; [constructor|].
  destruct (existsb (String.eqb (Ticker a)) seen); [apply IH|].
  simpl. constructor; [|apply IH].
  intro Hin. apply in_map_iff in Hin. destruct Hin as [s [Es Hs]].
  apply drop_duplicates_from_In in Hs. destruct Hs as [_ Hs].
  apply Hs. left. now symmetry.
Qed.

Lemma NoDup_map_filter {A B} (f : A -> B) (g : A -> bool) (l : list A) :
  NoDup (map f l) -> NoDup (map f (filter g l)).
Proof.
  induction l as [|a l IH]; simpl; intro H; [constructor|].
  inversion H as [|? ? Hn Hd]; subst.
  destruct (g a); simpl; [|now apply IH].
  constructor; [|now apply IH].
  intro Hin. apply Hn. apply in_map_iff in Hin. destruct Hin as [x [Ex Hx]].
  apply filter_In in Hx. apply in_map_iff. exists x. tauto.
Qed.

Lemma complete_returns (s : Stock) :
  complete s = true <->
  Return_1M s <> None /\ Return_3M s <> None /\
  Return_6M s <> None /\ Return_1Y s <> None.
Proof.
  unfold complete.
  destruct (Return_1M s), (Return_3M s), (Return_6M s), (Return_1Y s); simpl;
    split; intro H; try discriminate; try tauto;
    repeat split; discriminate.
Qed.

Lemma combine_exchanges_NoDup (all_data : list (list Stock)) :
  NoDup (map Ticker (combine_exchanges all_data)).
Proof.
  unfold combine_exchanges, dropna_returns, drop_duplicates.
  apply NoDup_map_filter, drop_duplicates_from_NoDup.
Qed.

Lemma combine_exchanges_complete (all_data : list (list Stock)) (s : Stock) :
  In s (combine_exchanges all_data) -> complete s = true.
Proof.
  unfold combine_exchanges, dropna_returns. intro H.
  apply filter_In in H. tauto.
Qed.

(** X1. The frame kept by [collect_all_stocks] and stored by
    [fetch_and_store_data] has no ticker twice, consists of rows that were
    downloaded, and every row has its four returns. *)
Theorem combine_exchanges_wellformed (all_data : list (list Stock)) :
  NoDup (map Ticker (combine_exchanges all_data)) /\
  forall s, In s (combine_exchanges all_data) ->
            In s (concat all_data) /\
            Return_1M s <> None /\ Return_3M s <> None /\
            Return_6M s <> None /\ Return_1Y s <> None.
Proof.
  unfold combine_exchanges, dropna_returns, drop_duplicates. split.
  - apply NoDup_map_filter, drop_duplicates_from_NoDup.
  - intros s Hs. apply filter_In in Hs. destruct Hs as [Hs Hc].
    apply drop_duplicates_from_In in Hs. split; [tauto|].
    now apply complete_returns.
Qed.

Lemma row_of_drop_duplicates_from (t : string) (seen : list string) (df : list Stock) :
  row_of t (drop_duplicates_from seen df)
  = if existsb (String.eqb t) seen then None else row_of t df.
Proof.
  unfold row_of. revert seen. induction df as [|a df IH]; intro seen; simpl.
  - now destruct (existsb (String.eqb t) seen).
  - destruct (existsb (String.eqb (Ticker a)) seen) eqn:Ea.
    + rewrite IH. destruct (existsb (String.eqb t) seen) eqn:Et; [reflexivity|].
      destruct (String.eqb (Ticker a) t) eqn:E; [|reflexivity].
      apply String.eqb_eq in E. rewrite E in Ea. congruence.
    + simpl. destruct (String.eqb (Ticker a) t) eqn:E.
      * apply String.eqb_eq in E. rewrite <- E, Ea. reflexivity.
      * rewrite IH. simpl. rewrite String.eqb_sym, E. reflexivity.
Qed.

Lemma row_of_None (t : string) (df : list Stock) :
  ~ In t (map Ticker df) -> row_of t df = None.
Proof.
  unfold row_of. induction df as [|a df IH]; simpl; intro H; [reflexivity|].
  destruct (String.eqb (Ticker a) t) eqn:E.
  - apply String.eqb_eq in E. exfalso. apply H. now left.
  - apply IH. intro Hin. apply H. now right.
Qed.

Lemma row_of_filter (t : string) (g : Stock -> bool) (df : list Stock) :
  NoDup (map Ticker df) ->
  row_of t (filter g df)
  = match row_of t df with
    | Some s => if g s then Some s else None
    | None => None
    end.
Proof.
  induction df as [|a df IH]; simpl; intro H; [reflexivity|].
  inversion H as [|? ? Hn Hd]; subst.
  unfold row_of in *. simpl.
  destruct (String.eqb (Ticker a) t) eqn:E.
  - destruct (g a) eqn:G; simpl; [now rewrite E|].
    apply String.eqb_eq in E. subst t.
    apply (row_of_None (Ticker a) (filter g df)).
    intro Hin. apply Hn. apply in_map_iff in Hin. destruct Hin as [x [Ex Hx]].
    apply filter_In in Hx. apply in_map_iff. exists x. tauto.
  - destruct (g a); simpl; [rewrite E|]; now apply IH.
Qed.

(** X2. The row kept for a ticker is its first downloaded row when that row
    has its four returns; when the first row lacks a return the ticker is
    not kept at all, whatever later rows say. *)
Theorem combine_exchanges_keeps_first (all_data : list (list Stock)) (t : string) :
  row_of t (combine_exchanges all_data)
  = match row_of t (concat all_data) with
    | Some s => if complete s then Some s else None
    | None => None
    end.
Proof.
  unfold combine_exchanges, dropna_returns, drop_duplicates.
  rewrite row_of_filter by apply drop_duplicates_from_NoDup.
  rewrite row_of_drop_duplicates_from. reflexivity.
Qed.

Lemma drop_duplicates_from_length (seen : list string) (df : list Stock) :
  (length (drop_duplicates_from seen df) <= length df)%nat.
Proof.
  revert seen. induction df as [|a df IH]; intro seen; simpl; [lia|].
  destruct (existsb (String.eqb (Ticker a)) seen); simpl.
  - specialize (IH seen). lia.
  - specialize (IH (Ticker a :: seen)). lia.
Qed.

(** X3. A refresh in which a screener raises leaves the stored table as it
    was; a refresh that succeeds replaces it by a table without repeated
    tickers, reports its size as [total_stored], and stores no more rows
    than the two exchanges delivered. *)
Theorem fetch_and_store_data_result
  (screen : string -> option (list OverviewRow * list PerfRow))
  (table : list Stock) :
  match snd (fetch_and_store_data screen table) with
  | None =>
      fst (fetch_and_store_data screen table) = table /\
      (screen "NYSE"%string = None \/ screen "NASDAQ"%string = None)
  | Some stats =>
      total_stored stats = get_stock_count (fst (fetch_and_store_data screen table)) /\
      (total_stored stats <= nyse_count stats + nasdaq_count stats)%nat /\
      NoDup (map Ticker (fst (fetch_and_store_data screen table))) /\
      screen "NYSE"%string <> None /\ screen "NASDAQ"%string <> None
  end.
Proof.
  unfold fetch_and_store_data.
  destruct (screen "NYSE"%string) as [[base1 perf1]|]; [|simpl; auto].
  destruct (screen "NASDAQ"%string) as [[base2 perf2]|]; [|simpl; auto].
  cbv zeta. simpl fst. simpl snd. cbv beta iota.
  split; [reflexivity|]. split; [|split; [|split; discriminate]].
  - simpl. unfold combine_exchanges, dropna_returns, drop_duplicates.
    eapply Nat.le_trans; [apply filter_length_le|].
    eapply Nat.le_trans; [apply drop_duplicates_from_length|].
    simpl. rewrite app_nil_r, length_app. lia.
  - apply combine_exchanges_NoDup.
Qed.

(** The composite columns of a row with four defined percentiles. *)
Lemma composite_of_defined
  (df : list Stock) (s : Scored) (p1 p2 p3 p4 : Q) :
  In s (calculate_hqm_score (calculate_percentile_scores df)) ->
  Pct_1M (ranked s) = Some p1 -> Pct_3M (ranked s) = Some p2 ->
  Pct_6M (ranked s) = Some p3 -> Pct_1Y (ranked s) = Some p4 ->
  exists h m,
    HQM_Score s = Some h /\ Min_Percentile s = Some m /\
    0 <= m /\ m <= h /\ h <= 100.
Proof.
  intros Hrow H1 H2 H3 H4.
  unfold calculate_hqm_score in Hrow. apply in_map_iff in Hrow.
  destruct Hrow as [r [<- Hr]]. simpl in *.
  destruct (pct_col_bounds TF_1M df r p1 Hr H1) as [L1 U1].
  destruct (pct_col_bounds TF_3M df r p2 Hr H2) as [L2 U2].
  destruct (pct_col_bounds TF_6M df r p3 Hr H3) as [L3 U3].
  destruct (pct_col_bounds TF_1Y df r p4 Hr H4) as [L4 U4].
  unfold percentile_columns. rewrite H1, H2, H3, H4.
  exists ((p1 + (p2 + (p3 + (p4 + 0)))) / 4).
  exists (Qmin (Qmin (Qmin p1 p2) p3) p4).
  split; [reflexivity|]. split; [reflexivity|].
  set (m := Qmin (Qmin (Qmin p1 p2) p3) p4).
  assert (M4 : m <= p4) by apply Q.le_min_r.
  assert (M3 : m <= p3).
  { eapply Qle_trans; [apply Q.le_min_l|]. apply Q.le_min_r. }
  assert (M2 : m <= p2).
  { eapply Qle_trans; [apply Q.le_min_l|].
    eapply Qle_trans; [apply Q.le_min_l|]. apply Q.le_min_r. }
  assert (M1 : m <= p1).
  { eapply Qle_trans; [apply Q.le_min_l|].
    eapply Qle_trans; [apply Q.le_min_l|]. apply Q.le_min_l. }
  assert (M0 : 0 <= m).
  { unfold m. repeat apply Q.min_glb; assumption. }
  clearbody m.
  split; [exact M0|]. split.
  - apply Qle_shift_div_l; [reflexivity|]. lra.
  - apply Qle_shift_div_r; [reflexivity|]. lra.
Qed.

(** X4. On a table produced by the collection step every row of the scored
    frame has its four percentiles, its HQM_Score and its Min_Percentile
    defined, all of them between 0 and 100. *)
Theorem collected_table_fully_scored (all_data : list (list Stock)) (s : Scored) :
  In s (calculate_hqm_score
          (calculate_percentile_scores (combine_exchanges all_data))) ->
  exists p1 p2 p3 p4 h m,
    Pct_1M (ranked s) = Some p1 /\ Pct_3M (ranked s) = Some p2 /\
    Pct_6M (ranked s) = Some p3 /\ Pct_1Y (ranked s) = Some p4 /\
    HQM_Score s = Some h /\ Min_Percentile s = Some m /\
    0 <= m /\ m <= h /\ h <= 100.
Proof.
  intro Hs.
  set (df := combine_exchanges all_data) in *.
  assert (Hr : In (ranked s) (calculate_percentile_scores df)).
  { unfold calculate_hqm_score in Hs. apply in_map_iff in Hs.
    destruct Hs as [r [<- Hr]]. exact Hr. }
  assert (Hdef : forall tf, exists p, pct_col tf (ranked s) = Some p).
  { intro tf. destruct (pct_col_spec tf df _ Hr) as [Hin E].
    apply combine_exchanges_complete, complete_returns in Hin.
    destruct Hin as (H1 & H2 & H3 & H4).
    rewrite E. unfold pct_of.
    destruct tf; simpl;
      [destruct (Return_1M (stock (ranked s))) | destruct (Return_3M (stock (ranked s)))
      |destruct (Return_6M (stock (ranked s))) | destruct (Return_1Y (stock (ranked s)))];
      try congruence; eexists; reflexivity. }
  destruct (Hdef TF_1M) as [p1 H1]. destruct (Hdef TF_3M) as [p2 H2].
  destruct (Hdef TF_6M) as [p3 H3]. destruct (Hdef TF_1Y) as [p4 H4].
  simpl in H1, H2, H3, H4.
  destruct (composite_of_defined df s p1 p2 p3 p4 Hs H1 H2 H3 H4)
    as (h & m & Hh & Hm & B1 & B2 & B3).
  exists p1, p2, p3, p4, h, m. tauto.
Qed.

(** X5. The merged frame of an exchange holds a ticker exactly when both
    screens list it, and every merged row carries the exchange name. *)
Theorem merge_exchange_inner (exchange : string) (df_base : list OverviewRow)
  (df_returns : list PerfRow) (t : string) :
  (In t (map Ticker (merge_exchange exchange df_base df_returns)) <->
   In t (map ov_Ticker df_base) /\ In t (map pf_Ticker df_returns)) /\
  (forall s, In s (merge_exchange exchange df_base df_returns) ->
             Exchange s = exchange).
Proof.
  unfold merge_exchange. split; [split|].
  - intro H. apply in_map_iff in H. destruct H as [s [<- Hs]].
    apply in_flat_map in Hs. destruct Hs as [b [Hb Hs]].
    apply in_map_iff in Hs. destruct Hs as [r [<- Hr]].
    apply filter_In in Hr. destruct Hr as [Hr E]. apply String.eqb_eq in E.
    simpl. split.
    + apply in_map_iff. eauto.
    + apply in_map_iff. exists r. split; [exact E|exact Hr].
  - intros [Hb Hr].
    apply in_map_iff in Hb. destruct Hb as [b [Eb Hb]].
    apply in_map_iff in Hr. destruct Hr as [r [Er Hr]].
    apply in_map_iff.
    eexists. split; [|apply in_flat_map; exists b; split; [exact Hb|];
                      apply in_map_iff; exists r; split; [reflexivity|];
                      apply filter_In; split; [exact Hr|];
                      apply String.eqb_eq; congruence].
    simpl. exact Eb.
  - intros s Hs. apply in_flat_map in Hs. destruct Hs as [b [_ Hs]].
    apply in_map_iff in Hs. destruct Hs as [r [<- _]]. reflexivity.
Qed.

(** ** Percentile ranks *)

Lemma filter_length_mono {A} (f g : A -> bool) (l : list A) :
  (forall x, In x l -> f x = true -> g x = true) ->
  (length (filter f l) <= length (filter g l))%nat.
Proof.
  induction l as [|a l IH]; simpl; intro H; [lia|].
  assert (IH' : (length (filter f l) <= length (filter g l))%nat).
  { apply IH. intros x Hx. apply H. now right. }
  destruct (f a) eqn:Ef.
  - rewrite (H a (or_introl eq_refl) Ef). simpl. lia.
  - destruct (g a); simpl; lia.
Qed.

Lemma filter_length_strict {A} (f g : A -> bool) (l : list A) (x0 : A) :
  (forall x, In x l -> f x = true -> g x = true) ->
  In x0 l -> f x0 = false -> g x0 = true ->
  (length (filter f l) < length (filter g l))%nat.
Proof.
  induction l as [|a l IH]; simpl; intros H Hin Hf Hg; [contradiction|].
  assert (Hmono : (length (filter f l) <= length (filter g l))%nat).
  { apply filter_length_mono. intros x Hx. apply H. now right. }
  destruct Hin as [->|Hin].
  - rewrite Hf, Hg. simpl. lia.
  - assert (IH' : (length (filter f l) < length (filter g l))%nat).
    { apply IH; try assumption. intros x Hx. apply H. now right. }
    destruct (f a) eqn:Ef.
    + rewrite (H a (or_introl eq_refl) Ef). simpl. lia.
    + destruct (g a); simpl; lia.
Qed.

Lemma Qle_bool_refl (x : Q) : Qle_bool x x = true.
Proof. apply Qle_bool_iff, Qle_refl. Qed.

(** A member of the population is counted among the values at most itself
    and not among the values below itself. *)
Lemma count_lt_lt_count_le (a : list Q) (x : Q) :
  In x a -> (count_lt a x < count_le a x)%nat.
Proof.
  intro Hin. unfold count_lt, count_le.
  apply (filter_length_strict _ _ a x).
  - intros y _ Hy. apply negb_true_iff, Qle_bool_false_lt in Hy.
    apply Qle_bool_iff. now apply Qlt_le_weak.
  - exact Hin.
  - now rewrite Qle_bool_refl.
  - apply Qle_bool_refl.
Qed.

Lemma count_le_le_count_lt (a : list Q) (x y : Q) :
  x < y -> (count_le a x <= count_lt a y)%nat.
Proof.
  intro Hxy. unfold count_lt, count_le. apply filter_length_mono.
  intros z _ Hz. apply Qle_bool_iff in Hz.
  apply negb_true_iff, Qle_bool_false_lt. eapply Qle_lt_trans; eauto.
Qed.

Lemma percentileofscore_lt (a : list Q) (x y : Q) :
  In x a -> In y a -> x < y -> percentileofscore a x < percentileofscore a y.
Proof.
  intros Hx Hy Hxy. unfold percentileofscore.
  pose proof (count_lt_lt_count_le a x Hx) as H1.
  pose proof (count_lt_lt_count_le a y Hy) as H2.
  pose proof (count_le_le_count_lt a x y Hxy) as H3.
  assert (Hn : 0 < Qlen a) by (apply Qlen_pos; intro E; rewrite E in Hx; exact Hx).
  assert (Hc : 0 < 50 / Qlen a).
  { apply Qlt_shift_div_l; [exact Hn|]. rewrite Qmult_0_l. reflexivity. }
  apply Qmult_lt_compat_r; [exact Hc|].
  rewrite <- Zlt_Qlt. lia.
Qed.

Lemma In_dropna_map (col : Stock -> option Q) (df : list Stock) (s : Stock) (x : Q) :
  In s df -> col s = Some x -> In x (dropna (map col df)).
Proof.
  induction df as [|a df IH]; simpl; intros Hin Hx; [contradiction|].
  destruct Hin as [->|Hin].
  - rewrite Hx. now left.
  - destruct (col a); [right|]; now apply IH.
Qed.

(** X6. Within a timeframe the percentile ranks the rows as their returns
    do: a smaller return has a smaller percentile and equal returns have
    equal percentiles. *)
Theorem percentile_follows_return
  (df : list Stock) (tf : Timeframe) (r1 r2 : Ranked) (x y : Q)
  (Hr1 : In r1 (calculate_percentile_scores df))
  (Hr2 : In r2 (calculate_percentile_scores df))
  (Hx : return_col tf (stock r1) = Some x)
  (Hy : return_col tf (stock r2) = Some y) :
  exists p q,
    pct_col tf r1 = Some p /\ pct_col tf r2 = Some q /\
    (x < y <-> p < q) /\ (x == y <-> p == q).
Proof.
  destruct (pct_col_spec tf df r1 Hr1) as [Hin1 E1].
  destruct (pct_col_spec tf df r2 Hr2) as [Hin2 E2].
  set (a := dropna (map (return_col tf) df)).
  exists (percentileofscore a x), (percentileofscore a y).
  split; [rewrite E1; unfold pct_of; now rewrite Hx|].
  split; [rewrite E2; unfold pct_of; now rewrite Hy|].
  assert (Ax : In x a) by exact (In_dropna_map _ df _ x Hin1 Hx).
  assert (Ay : In y a) by exact (In_dropna_map _ df _ y Hin2 Hy).
  assert (Heq : x == y -> percentileofscore a x == percentileofscore a y).
  { intro E. unfold percentileofscore.
    now rewrite (count_lt_compat _ x y E), (count_le_compat _ x y E). }
  split; split.
  - now apply percentileofscore_lt.
  - intro Hpq. destruct (Q_dec x y) as [[H|H]|H]; [exact H| |].
    + pose proof (percentileofscore_lt a y x Ay Ax H) as Hqp.
      exfalso. exact (Qlt_irrefl _ (Qlt_trans _ _ _ Hpq Hqp)).
    + rewrite (Heq H) in Hpq. exfalso. exact (Qlt_irrefl _ Hpq).
  - exact Heq.
  - intro Hpq. destruct (Q_dec x y) as [[H|H]|H]; [| |exact H].
    + pose proof (percentileofscore_lt a x y Ax Ay H) as Hlt.
      rewrite Hpq in Hlt. exfalso. exact (Qlt_irrefl _ Hlt).
    + pose proof (percentileofscore_lt a y x Ay Ax H) as Hlt.
      rewrite Hpq in Hlt. exfalso. exact (Qlt_irrefl _ Hlt).
Qed.

Lemma percentile_follows_return_witness :
  exists p q,
    pct_col TF_1M (nth 0 (calculate_percentile_scores example_df)
                     (ranked default_scored)) = Some p /\
    pct_col TF_1M (nth 1 (calculate_percentile_scores example_df)
                     (ranked default_scored)) = Some q /\
    ((2 # 100) < (5 # 100) <-> p < q) /\ ((2 # 100) == (5 # 100) <-> p == q).
Proof.
  apply (percentile_follows_return example_df TF_1M).
  - left. reflexivity.
  - right. left. reflexivity.
  - reflexivity.
  - reflexivity.
Defined.

Lemma rank_cons (y : Q) (a : list Q) (x : Q) :
  (count_lt (y :: a) x + count_le (y :: a) x
   = Nat.b2n (negb (Qle_bool x y)) + Nat.b2n (Qle_bool y x)
     + (count_lt a x + count_le a x))%nat.
Proof.
  unfold count_lt, count_le. simpl.
  destruct (Qle_bool x y), (Qle_bool y x); simpl; lia.
Qed.

Lemma list_sum_cons (x : nat) (l : list nat) :
  list_sum (x :: l) = (x + list_sum l)%nat.
Proof. reflexivity. Qed.

Lemma list_sum_map_add {A} (f g : A -> nat) (l : list A) :
  list_sum (map (fun x => f x + g x)%nat l)
  = (list_sum (map f l) + list_sum (map g l))%nat.
Proof. induction l; simpl; lia. Qed.

Lemma rank_cross (a : list Q) (x0 : Q) :
  (count_lt a x0 + count_le a x0
   + list_sum (map (fun y => Nat.b2n (negb (Qle_bool y x0))
                             + Nat.b2n (Qle_bool x0 y))%nat a)
   = 2 * length a)%nat.
Proof.
  induction a as [|y a IH]; [reflexivity|].
  rewrite rank_cons. cbn [map length]. rewrite list_sum_cons.
  destruct (Qle_bool x0 y), (Qle_bool y x0); simpl Nat.b2n; lia.
Qed.

Lemma rank_double_count (a b : list Q) :
  (list_sum (map (fun x => count_lt a x + count_le a x) b)
   + list_sum (map (fun y => count_lt b y + count_le b y) a)
   = 2 * length a * length b)%nat.
Proof.
  induction b as [|x0 b IH].
  - simpl. induction a; simpl; lia.
  - cbn [map length]. rewrite list_sum_cons.
    rewrite (map_ext _ _ (rank_cons x0 b)).
    rewrite (list_sum_map_add
               (fun y => Nat.b2n (negb (Qle_bool y x0)) + Nat.b2n (Qle_bool x0 y))%nat
               (fun y => count_lt b y + count_le b y)%nat a).
    pose proof (rank_cross a x0). nia.
Qed.

(** The ranks of a population add up to the square of its size. *)
Lemma rank_total (a : list Q) :
  list_sum (map (fun x => count_lt a x + count_le a x)%nat a)
  = (length a * length a)%nat.
Proof. pose proof (rank_double_count a a). nia. Qed.

Lemma Qsum_scaled_counts {A} (f : A -> nat) (c : Q) (l : list A) :
  Qsum (map (fun x => inject_Z (Z.of_nat (f x)) * c) l)
  == inject_Z (Z.of_nat (list_sum (map f l))) * c.
Proof.
  induction l as [|a l IH]; simpl.
  - ring.
  - rewrite IH, Nat2Z.inj_add, inject_Z_plus. ring.
Qed.

Lemma percentile_sum (a : list Q) :
  Qsum (map (percentileofscore a) a) == 50 * Qlen a.
Proof.
  unfold percentileofscore.
  rewrite (Qsum_scaled_counts (fun x => count_lt a x + count_le a x)%nat).
  rewrite rank_total, Nat2Z.inj_mul, inject_Z_mult.
  fold (Qlen a). destruct a as [|y a].
  - reflexivity.
  - assert (Hn : 0 < Qlen (y :: a)) by (apply Qlen_pos; discriminate).
    field. intro Hz. rewrite Hz in Hn. exact (Qlt_irrefl _ Hn).
Qed.

Lemma pct_column_defined (col : Stock -> option Q) (df l : list Stock) :
  dropna (map (pct_of col df) l)
  = map (percentileofscore (dropna (map col df))) (dropna (map col l)).
Proof.
  induction l as [|s l IH]; simpl; [reflexivity|].
  unfold pct_of at 1. destruct (col s); simpl; now rewrite IH.
Qed.

Lemma pct_column (tf : Timeframe) (df : list Stock) :
  map (pct_col tf) (calculate_percentile_scores df)
  = map (pct_of (return_col tf) df) df.
Proof.
  unfold calculate_percentile_scores. rewrite map_map.
  apply map_ext. intro s. destruct tf; reflexivity.
Qed.

(** X7. In every timeframe the percentiles that are defined add up to 50
    times their number: the average percentile of a column is 50 whatever
    the returns are. *)
Theorem percentile_column_average (df : list Stock) (tf : Timeframe) :
  Qsum (dropna (map (pct_col tf) (calculate_percentile_scores df)))
  == 50 * Qlen (dropna (map (return_col tf) df)).
Proof.
  rewrite pct_column, pct_column_defined. apply percentile_sum.
Qed.

(** X8. No row ever gets the percentile 0 or 100: with [n] defined returns
    in the timeframe every percentile lies between 50/n and 100 - 50/n. *)
Theorem percentile_never_extreme
  (df : list Stock) (tf : Timeframe) (r : Ranked) (p : Q)
  (Hr : In r (calculate_percentile_scores df))
  (Hp : pct_col tf r = Some p) :
  let n := Qlen (dropna (map (return_col tf) df)) in
  0 < n /\ 50 / n <= p /\ p <= 100 - 50 / n.
Proof.
  cbv zeta. destruct (pct_col_spec tf df r Hr) as [Hin E].
  rewrite E in Hp. unfold pct_of in Hp.
  destruct (return_col tf (stock r)) as [x|] eqn:Hx; [|discriminate].
  injection Hp as <-.
  set (a := dropna (map (return_col tf) df)).
  assert (Ax : In x a) by exact (In_dropna_map _ df _ x Hin Hx).
  assert (Hn : 0 < Qlen a) by (apply Qlen_pos; intro Ea; rewrite Ea in Ax; exact Ax).
  assert (Hnz : ~ Qlen a == 0) by (intro Hz; rewrite Hz in Hn; exact (Qlt_irrefl _ Hn)).
  pose proof (count_lt_lt_count_le a x Ax) as H1.
  assert (H2 : (count_le a x <= length a)%nat) by apply filter_length_le.
  unfold percentileofscore.
  set (k := inject_Z (Z.of_nat (count_lt a x + count_le a x))).
  assert (Hk1 : 1 <= k).
  { unfold k. change 1 with (inject_Z 1). rewrite <- Zle_Qle. lia. }
  assert (Hk2 : k <= 2 * Qlen a - 1).
  { unfold k, Qlen. change 2 with (inject_Z 2). change 1 with (inject_Z 1).
    rewrite <- inject_Z_mult. unfold Qminus. rewrite <- inject_Z_opp, <- inject_Z_plus.
    rewrite <- Zle_Qle. lia. }
  clearbody k. generalize dependent (Qlen a). intros n Hn Hnz Hk2.
  split; [exact Hn|].
  assert (E1 : k * (50 / n) == k * 50 / n) by (field; exact Hnz).
  assert (E2 : 100 - 50 / n == (100 * n - 50) / n) by (field; exact Hnz).
  rewrite E1, E2. split.
  - apply Qle_shift_div_l; [exact Hn|].
    assert (E3 : 50 / n * n == 50) by (field; exact Hnz). rewrite E3. lra.
  - apply Qle_shift_div_l; [exact Hn|].
    assert (E3 : k * 50 / n * n == k * 50) by (field; exact Hnz). rewrite E3. lra.
Qed.

Lemma percentile_never_extreme_witness :
  let n := Qlen (dropna (map (return_col TF_1M) example_df)) in
  0 < n /\ 50 / n <= 50 # 5 /\ 50 # 5 <= 100 - 50 / n.
Proof.
  apply (percentile_never_extreme example_df TF_1M
           (nth 0 (calculate_percentile_scores example_df) (ranked default_scored))).
  - left. reflexivity.
  - reflexivity.
Defined.

Lemma complete_pct_defined (df : list Stock) (tf : Timeframe) (r : Ranked) :
  (forall s, In s df -> complete s = true) ->
  In r (calculate_percentile_scores df) ->
  exists p, pct_col tf r = Some p.
Proof.
  intros Hc Hr. destruct (pct_col_spec tf df r Hr) as [Hin E].
  apply Hc, complete_returns in Hin. destruct Hin as (H1 & H2 & H3 & H4).
  rewrite E. unfold pct_of.
  destruct tf; simpl;
    [destruct (Return_1M (stock r)) | destruct (Return_3M (stock r))
    |destruct (Return_6M (stock r)) | destruct (Return_1Y (stock r))];
    try congruence; eexists; reflexivity.
Qed.

Lemma dropna_length_le (xs : list (option Q)) :
  (length (dropna xs) <= length xs)%nat.
Proof. induction xs as [|[x|] xs IH]; simpl; lia. Qed.

Lemma filter_all {A} (f : A -> bool) (l : list A) :
  (forall x, In x l -> f x = true) -> filter f l = l.
Proof.
  induction l as [|a l IH]; simpl; intro H; [reflexivity|].
  rewrite (H a (or_introl eq_refl)). f_equal. apply IH. intros x Hx. apply H. now right.
Qed.

(** A defined percentile is the rank of a member of the population. *)
Lemma pct_col_member (df : list Stock) (tf : Timeframe) (r : Ranked) (p : Q) :
  In r (calculate_percentile_scores df) -> pct_col tf r = Some p ->
  exists x, In x (dropna (map (return_col tf) df)) /\
            p = percentileofscore (dropna (map (return_col tf) df)) x.
Proof.
  intros Hr Hp. destruct (pct_col_spec tf df r Hr) as [Hin E].
  rewrite E in Hp. unfold pct_of in Hp.
  destruct (return_col tf (stock r)) as [x|] eqn:Hx; [|discriminate].
  injection Hp as <-. exists x. split; [|reflexivity].
  exact (In_dropna_map _ df _ x Hin Hx).
Qed.

(** X9. On a table of one or two stocks with complete returns the quality
    filter removes nothing: every percentile is at least 25 there. *)
Theorem small_table_passes_quality_filter (df : list Stock)
  (Hcomplete : forall s, In s df -> complete s = true)
  (Hsmall : (length df <= 2)%nat) :
  quality_filter quality_threshold
    (calculate_hqm_score (calculate_percentile_scores df))
  = calculate_hqm_score (calculate_percentile_scores df).
Proof.
  unfold quality_filter. apply filter_all. intros s Hs.
  unfold calculate_hqm_score in Hs. apply in_map_iff in Hs.
  destruct Hs as [r [<- Hr]]. simpl.
  assert (Hlow : forall tf p, pct_col tf r = Some p -> 25 <= p).
  { intros tf p Hp.
    destruct (pct_col_member df tf r p Hr Hp) as (x & Hx & ->).
    set (a := dropna (map (return_col tf) df)) in *.
    assert (Hn : 0 < Qlen a).
    { apply Qlen_pos. intro Ea. rewrite Ea in Hx. exact Hx. }
    assert (Hle : Qlen a <= 2).
    { unfold Qlen. change 2 with (inject_Z 2). rewrite <- Zle_Qle.
      pose proof (dropna_length_le (map (return_col tf) df)) as Hd.
      rewrite length_map in Hd. fold a in Hd. lia. }
    pose proof (count_lt_lt_count_le a x Hx) as Hk.
    unfold percentileofscore.
    set (k := inject_Z (Z.of_nat (count_lt a x + count_le a x))).
    assert (Hk1 : 1 <= k).
    { unfold k. change 1 with (inject_Z 1). rewrite <- Zle_Qle. lia. }
    clearbody k. generalize dependent (Qlen a). intros n Hn Hle.
    assert (Hnz : ~ n == 0) by (intro Hz; rewrite Hz in Hn; exact (Qlt_irrefl _ Hn)).
    assert (E : k * (50 / n) == k * 50 / n) by (field; exact Hnz).
    rewrite E. apply Qle_shift_div_l; [exact Hn|]. nra. }
  destruct (complete_pct_defined df TF_1M r Hcomplete Hr) as [p1 H1].
  destruct (complete_pct_defined df TF_3M r Hcomplete Hr) as [p2 H2].
  destruct (complete_pct_defined df TF_6M r Hcomplete Hr) as [p3 H3].
  destruct (complete_pct_defined df TF_1Y r Hcomplete Hr) as [p4 H4].
  pose proof (Hlow TF_1M p1 H1) as L1. pose proof (Hlow TF_3M p2 H2) as L2.
  pose proof (Hlow TF_6M p3 H3) as L3. pose proof (Hlow TF_1Y p4 H4) as L4.
  simpl in H1, H2, H3, H4.
  unfold percentile_columns. rewrite H1, H2, H3, H4. simpl.
  apply Qle_bool_iff. unfold quality_threshold.
  repeat apply Q.min_glb; assumption.
Qed.

Lemma small_table_passes_quality_filter_witness :
  quality_filter quality_threshold
    (calculate_hqm_score (calculate_percentile_scores tie_df))
  = calculate_hqm_score (calculate_percentile_scores tie_df).
Proof.
  apply (small_table_passes_quality_filter tie_df).
  - intros s Hs. simpl in Hs.
    repeat (destruct Hs as [<-|Hs]; [reflexivity|]). contradiction.
  - simpl. lia.
Defined.

(** ** Share counts *)



(** ** Batches and the distance dictionary *)

Lemma batches_fuel_spec {A} (fuel : nat) (l : list A) :
  (length l <= fuel)%nat ->
  concat (batches_fuel fuel l) = l /\
  Forall (fun b => (1 <= length b <= batch_size)%nat) (batches_fuel fuel l) /\
  length (batches_fuel fuel l) = ((length l + 49) / 50)%nat.
Proof.
  revert l. induction fuel as [|f IH]; intros l Hlen.
  - destruct l; [|simpl in Hlen; lia]. simpl. repeat split. constructor.
  - destruct l as [|a l]; [simpl; repeat split; constructor|].
    cbn [batches_fuel].
    assert (Hs : (length (skipn batch_size (a :: l)) <= f)%nat).
    { rewrite length_skipn. simpl in *. unfold batch_size. lia. }
    destruct (IH _ Hs) as (IH1 & IH2 & IH3).
    split; [|split].
    + cbn [concat]. rewrite IH1. apply firstn_skipn.
    + constructor; [|exact IH2].
      rewrite length_firstn. unfold batch_size. simpl length. lia.
    + cbn [length]. rewrite IH3, length_skipn. cbn [length]. unfold batch_size.
      set (n := S (length l)).
      assert (Hn : (1 <= n)%nat) by (unfold n; lia).
      clearbody n.
      destruct (Nat.le_gt_cases n 50) as [Hle|Hgt].
      * replace (n - 50)%nat with 0%nat by lia.
        change ((0 + 49) / 50)%nat with 0%nat.
        apply (Nat.div_unique (n + 49) 50 1 (n - 1)); lia.
      * replace (n + 49)%nat with ((n - 50 + 49) + 1 * 50)%nat by lia.
        rewrite Nat.div_add by discriminate. lia.
Qed.

(** X11. The tickers are asked for in consecutive batches of 1 to 50, each
    ticker in exactly one batch and in the order given, so the price service
    is called ceil(len/50) times. *)
Theorem batches_partition (tickers : list string) :
  concat (batches tickers) = tickers /\
  Forall (fun b => (1 <= length b <= 50)%nat) (batches tickers) /\
  length (batches tickers) = ((length tickers + 49) / 50)%nat.
Proof.
  unfold batches. apply batches_fuel_spec. lia.
Qed.

Lemma dict_get_set (d : dict) (k t : string) (v : Q) :
  dict_get (dict_set d k v) t = if String.eqb k t then Some v else dict_get d t.
Proof.
  induction d as [|[k' v'] d IH]; simpl; [reflexivity|].
  destruct (String.eqb k' k) eqn:E; simpl.
  - apply String.eqb_eq in E. subst k'.
    destruct (String.eqb k t); reflexivity.
  - destruct (String.eqb k' t) eqn:E'.
    + apply String.eqb_eq in E'. subst k'. now rewrite String.eqb_sym, E.
    + exact IH.
Qed.

Lemma dict_get_store (d : dict) (k t : string) (v : option Q) :
  dict_get (store d k v) t
  = if String.eqb k t
    then match v with Some _ => v | None => dict_get d t end
    else dict_get d t.
Proof.
  destruct v; simpl; [apply dict_get_set|].
  now destruct (String.eqb k t).
Qed.

(** Each branch stores under the ticker it was called for, or not at all. *)
Lemma single_ticker_store (data : Frame) (ticker : string) (results : dict) :
  exists v, single_ticker data ticker results = store results ticker v.
Proof.
  unfold single_ticker. destruct (close_of data ticker); [|now exists None].
  destruct (10 <=? frame_len data)%nat; [eexists; reflexivity|now exists None].
Qed.

Lemma multi_ticker_store (data : Frame) (ticker : string) (results : dict) :
  multi_ticker data ticker results
  = store results ticker (valid_history_entry data ticker).
Proof.
  unfold multi_ticker, valid_history_entry.
  destruct (close_of data ticker) as [col|]; [|reflexivity]. cbv zeta.
  rewrite length_map.
  destruct (10 <=? length (dropna col))%nat eqn:E; [|reflexivity].
  apply Nat.leb_le in E. rewrite (sma10_entry_valid _ E). simpl.
  now destruct (Qle_bool (sma10_of (dropna col)) 0).
Qed.

Lemma store_keys_within (d : dict) (k : string) (v : option Q) (keys : list string) :
  keys_within d keys -> In k keys -> keys_within (store d k v) keys.
Proof.
  intros Hd Hk t Ht. rewrite dict_get_store in Ht.
  destruct (String.eqb k t) eqn:E.
  - apply String.eqb_eq in E. now subst.
  - now apply Hd.
Qed.

Lemma multi_fold_keys_within (data : Frame) (batch : list string) (d : dict)
  (keys : list string) :
  keys_within d keys -> incl batch keys ->
  keys_within (fold_left (fun res t => multi_ticker data t res) batch d) keys.
Proof.
  revert d. induction batch as [|t batch IH]; intros d Hd Hincl; simpl; [exact Hd|].
  apply IH.
  - rewrite multi_ticker_store. apply store_keys_within; [exact Hd|].
    apply Hincl. now left.
  - intros x Hx. apply Hincl. now right.
Qed.

Lemma process_batch_keys_within (download : list string -> Download)
  (d : dict) (batch keys : list string) :
  keys_within d keys -> incl batch keys ->
  keys_within (process_batch download d batch) keys.
Proof.
  intros Hd Hincl. unfold process_batch.
  destruct (download batch) as [|data]; [exact Hd|].
  destruct (frame_empty data); [exact Hd|].
  destruct batch as [|t [|t' batch]].
  - exact Hd.
  - destruct (single_ticker_store data t d) as [v ->].
    apply store_keys_within; [exact Hd|]. apply Hincl. now left.
  - now apply multi_fold_keys_within.
Qed.

Lemma batches_fold_keys_within (download : list string -> Download)
  (bs : list (list string)) (d : dict) (keys : list string) :
  keys_within d keys -> incl (concat bs) keys ->
  keys_within (fold_left (process_batch download) bs d) keys.
Proof.
  revert d. induction bs as [|b bs IH]; intros d Hd Hincl; simpl; [exact Hd|].
  simpl in Hincl. apply IH.
  - apply process_batch_keys_within; [exact Hd|].
    intros x Hx. apply Hincl, in_or_app. now left.
  - intros x Hx. apply Hincl, in_or_app. now right.
Qed.

(** X12. The distance dictionary has entries only for tickers it was asked
    about; in particular it is empty for an empty ticker list. *)
Theorem get_sma10_distance_keys (download : list string -> Download)
  (tickers : list string) (t : string) :
  (dict_get (get_sma10_distance download tickers) t <> None -> In t tickers) /\
  get_sma10_distance download [] = [].
Proof.
  split; [|reflexivity].
  unfold get_sma10_distance.
  apply (batches_fold_keys_within download (batches tickers) [] tickers).
  - intros x Hx. simpl in Hx. congruence.
  - destruct (batches_fuel_spec (length tickers) tickers (le_n _)) as [E _].
    unfold batches. rewrite E. apply incl_refl.
Qed.

Lemma fold_unusable (download : list string -> Download) (bs : list (list string)) :
  (forall b, unusable (download b)) ->
  fold_left (process_batch download) bs [] = [].
Proof.
  intro H. induction bs as [|b bs IH]; simpl; [reflexivity|].
  assert (E : process_batch download [] b = []).
  { unfold process_batch. specialize (H b).
    destruct (download b) as [|data]; [reflexivity|]. simpl in H. now rewrite H. }
  rewrite E. exact IH.
Qed.

(** X13. When the price service gives nothing usable (it raises or returns
    an empty frame for every batch) the dictionary is empty, every candidate
    is left without a distance, and the trend filter removes nobody,
    whatever the threshold. *)
Theorem unusable_price_service_filters_nothing
  (download : list string -> Download) (tickers : list string)
  (m : Q) (df : list Scored)
  (Hfail : forall b, unusable (download b)) :
  get_sma10_distance download tickers = [] /\
  sma10_filter (Some m) (add_sma10 (get_sma10_distance download tickers) df)
  = add_sma10 (get_sma10_distance download tickers) df /\
  forall c, In c (add_sma10 (get_sma10_distance download tickers) df) ->
            SMA10_Distance c = None.
Proof.
  assert (E : get_sma10_distance download tickers = []).
  { unfold get_sma10_distance. now apply fold_unusable. }
  rewrite E. split; [reflexivity|].
  assert (Hnone : forall c, In c (add_sma10 [] df) -> SMA10_Distance c = None).
  { intros c Hc. unfold add_sma10 in Hc. apply in_map_iff in Hc.
    destruct Hc as [s [<- _]]. reflexivity. }
  split; [|exact Hnone].
  simpl. apply filter_all. intros c Hc. unfold within_trend.
  now rewrite (Hnone c Hc).
Qed.

Lemma unusable_price_service_filters_nothing_witness :
  get_sma10_distance no_download ["A"; "B"]%string = [] /\
  sma10_filter (Some 5) (add_sma10 (get_sma10_distance no_download ["A"; "B"]%string)
                                   tie_survivors)
  = add_sma10 (get_sma10_distance no_download ["A"; "B"]%string) tie_survivors /\
  forall c, In c (add_sma10 (get_sma10_distance no_download ["A"; "B"]%string)
                            tie_survivors) ->
            SMA10_Distance c = None.
Proof.
  apply (unusable_price_service_filters_nothing no_download).
  intro b. exact I.
Defined.

Lemma multi_fold_get (data : Frame) (batch : list string) (d : dict) (t : string) :
  NoDup batch ->
  dict_get (fold_left (fun res t => multi_ticker data t res) batch d) t
  = if existsb (String.eqb t) batch
    then match valid_history_entry data t with
         | Some v => Some v
         | None => dict_get d t
         end
    else dict_get d t.
Proof.
  revert d. induction batch as [|k batch IH]; intros d Hnd; simpl; [reflexivity|].
  inversion Hnd as [|? ? Hk Hnd']; subst.
  rewrite (IH _ Hnd'), multi_ticker_store, dict_get_store.
  destruct (String.eqb t k) eqn:E.
  - apply String.eqb_eq in E. subst k. rewrite String.eqb_refl. simpl.
    assert (Hn : existsb (String.eqb t) batch = false).
    { destruct (existsb (String.eqb t) batch) eqn:Ex; [|reflexivity].
      apply existsb_eqb_In in Ex. contradiction. }
    rewrite Hn. destruct (valid_history_entry data t); reflexivity.
  - rewrite String.eqb_sym, E. simpl. reflexivity.
Qed.

Lemma batches_single {A} (l : list A) :
  (1 <= length l <= 50)%nat -> batches l = [l].
Proof.
  intro H. unfold batches. destruct l as [|a l]; [simpl in H; lia|].
  cbn [length batches_fuel].
  rewrite firstn_all2 by (unfold batch_size; simpl in *; lia).
  rewrite skipn_all2 by (unfold batch_size; simpl in *; lia).
  destruct (length l); reflexivity.
Qed.

(** X14. For 2 to 50 distinct tickers answered by one non-empty frame, a
    ticker has an entry exactly when it has a column with at least ten valid
    closes whose ten-day average is positive, and the entry is
    100 * (latest - sma10) / sma10 rounded to 2 places. *)
Theorem several_tickers_distance
  (download : list string -> Download) (tickers : list string)
  (data : Frame) (t : string)
  (Hdistinct : NoDup tickers)
  (Hsize : (2 <= length tickers <= 50)%nat)
  (Hdata : download tickers = Data data)
  (Hrows : frame_empty data = false)
  (Hin : In t tickers) :
  dict_get (get_sma10_distance download tickers) t
  = match close_of data t with
    | Some col =>
        let closes := dropna col in
        if ((10 <=? length closes)%nat && negb (Qle_bool (sma10_of closes) 0))%bool
        then Some (round_nd 2 ((last closes 0 - sma10_of closes)
                               / sma10_of closes * 100))
        else None
    | None => None
    end.
Proof.
  unfold get_sma10_distance. rewrite batches_single by lia.
  cbn [fold_left]. unfold process_batch. rewrite Hdata, Hrows.
  destruct tickers as [|t1 [|t2 rest]]; [simpl in Hsize; lia|simpl in Hsize; lia|].
  rewrite (multi_fold_get data _ [] t Hdistinct).
  apply existsb_eqb_In in Hin. rewrite Hin.
  fold (valid_history_entry data t).
  now destruct (valid_history_entry data t).
Qed.

Lemma several_tickers_distance_witness :
  dict_get (get_sma10_distance nan_tail_download ["AAA"; "BBB"]%string) "AAA"%string
  = match close_of [("AAA"%string, nan_tail_column); ("BBB"%string, nan_tail_column)]
                   "AAA"%string with
    | Some col =>
        let closes := dropna col in
        if ((10 <=? length closes)%nat && negb (Qle_bool (sma10_of closes) 0))%bool
        then Some (round_nd 2 ((last closes 0 - sma10_of closes)
                               / sma10_of closes * 100))
        else None
    | None => None
    end.
Proof.
  apply (several_tickers_distance nan_tail_download ["AAA"; "BBB"]%string).
  - repeat constructor; simpl; intuition discriminate.
  - simpl. lia.
  - reflexivity.
  - reflexivity.
  - left. reflexivity.
Defined.

(** ** The scan as a whole *)

Lemma scan_selection_pool
  (sort_values : list Scored -> list Scored) (download : list string -> Download)
  (stocks : list Stock) (n : Z) (mx : option Q) :
  scan_selection sort_values download stocks n mx
  = head n (sma10_filter mx (scan_pool sort_values download stocks n mx)).
Proof. reflexivity. Qed.

(** What a successful scan returns, stage by stage. *)
Lemma scan_success_inv
  (sort_values : list Scored -> list Scored) (download : list string -> Download)
  (stocks : list Stock) (P : Q) (n : Z) (mx : option Q)
  (results : list (Sized Candidate)) (summary : Summary) :
  run_hqm_scan_from_db sort_values download stocks P n mx = Success results summary ->
  let pool := scan_pool sort_values download stocks n mx in
  let selection := scan_selection sort_values download stocks n mx in
  let total := length (calculate_hqm_score (calculate_percentile_scores stocks)) in
  exists sized,
    stocks <> [] /\
    size_rows candidate_price selection P = Some sized /\
    results = map round_values sized /\
    total_scanned summary = length stocks /\
    filtered_out summary = (total - length (scan_survivors stocks))%nat /\
    after_quality_filter summary = (total - filtered_out summary)%nat /\
    filtered_by_sma10 summary
      = match mx with
        | Some _ => (length pool - length (sma10_filter mx pool))%nat
        | None => 0%nat
        end /\
    selected summary = length selection /\
    max_sma10_distance summary = mx /\
    portfolio_size summary = P.
Proof.
  intro Hrun. cbv zeta.
  destruct stocks as [|s stocks]; [discriminate|].
  unfold run_hqm_scan_from_db in Hrun. cbv zeta in Hrun.
  unfold scan_selection, scan_pool, scan_survivors, tickers_of. cbv zeta.
  match type of Hrun with
  | match ?e with _ => _ end = _ => destruct e as [sized|] eqn:E
  end; [|discriminate].
  injection Hrun as <- <-. exists sized. simpl.
  repeat split; try reflexivity. discriminate.
Qed.

Lemma size_rows_Some {A} (price : A -> Q) (df : list A) (P : Q) (sized : list (Sized A)) :
  size_rows price df P = Some sized ->
  df <> [] /\ map row sized = df /\ length sized = length df.
Proof.
  unfold size_rows. destruct df as [|r0 df0]; [discriminate|].
  intro H. injection H as <-. split; [discriminate|].
  split.
  - exact (size_rows_rows price _ _ (r0 :: df0)).
  - exact (length_map _ (r0 :: df0)).
Qed.

Lemma head_length_le {A} (n : Z) (l : list A) : (length (head n l) <= length l)%nat.
Proof.
  unfold head. destruct (0 <=? n)%Z; rewrite length_firstn; lia.
Qed.

Lemma head_length_nonneg {A} (n : Z) (l : list A) :
  (0 <= n)%Z -> (Z.of_nat (length (head n l)) <= n)%Z.
Proof.
  intro H. rewrite head_nonneg by exact H. rewrite length_firstn. lia.
Qed.

Lemma filter_length_split {A} (f : A -> bool) (l : list A) :
  (length (filter f l) + length (filter (fun x => negb (f x)) l) = length l)%nat.
Proof.
  induction l as [|a l IH]; simpl; [reflexivity|].
  destruct (f a); simpl; lia.
Qed.

Lemma select_candidates_length
  (sort_values : list Scored -> list Scored) (mx : option Q) (n : Z)
  (df : list Scored) :
  sort_values_ok sort_values ->
  (length (select_candidates sort_values mx n df) <= length df)%nat.
Proof.
  intro Hsort. unfold select_candidates.
  eapply Nat.le_trans; [apply head_length_le|].
  destruct (Hsort df) as [Hp _]. rewrite (Permutation_length Hp). lia.
Qed.

(** X15. The counts of the summary add up: every scanned stock either
    passed the quality filter or is counted in [filtered_out]; the selected
    rows and the rows removed by the trend filter are together no more than
    the survivors; [selected] is the number of result rows, at least 1 and,
    for num_positions >= 0, at most num_positions; and nothing is counted as
    removed by the trend filter when no threshold is given. *)
Theorem summary_accounting
  (sort_values : list Scored -> list Scored) (download : list string -> Download)
  (stocks : list Stock) (P : Q) (n : Z) (mx : option Q)
  (results : list (Sized Candidate)) (summary : Summary)
  (Hsort : sort_values_ok sort_values)
  (Hrun : run_hqm_scan_from_db sort_values download stocks P n mx
          = Success results summary) :
  total_scanned summary = length stocks /\
  (after_quality_filter summary + filtered_out summary = total_scanned summary)%nat /\
  after_quality_filter summary = length (scan_survivors stocks) /\
  (selected summary + filtered_by_sma10 summary <= after_quality_filter summary)%nat /\
  selected summary = length results /\
  (1 <= selected summary)%nat /\
  ((0 <= n)%Z -> (Z.of_nat (selected summary) <= n)%Z) /\
  (mx = None -> filtered_by_sma10 summary = 0%nat).
Proof.
  destruct (scan_success_inv _ _ _ _ _ _ _ _ Hrun)
    as (sized & Hne & Hsize & Hres & Hts & Hfo & Haq & Hfs & Hsel & _ & _).
  destruct (size_rows_Some _ _ _ _ Hsize) as (Hsne & _ & Hlen).
  set (total := length (calculate_hqm_score (calculate_percentile_scores stocks))) in *.
  assert (Htotal : total = length stocks).
  { unfold total, calculate_hqm_score, calculate_percentile_scores.
    now rewrite !length_map. }
  assert (Hsurv : (length (scan_survivors stocks) <= total)%nat).
  { unfold scan_survivors, quality_filter. apply filter_length_le. }
  set (pool := scan_pool sort_values download stocks n mx) in *.
  assert (Hpool : (length pool <= length (scan_survivors stocks))%nat).
  { unfold pool, scan_pool, add_sma10. cbv zeta. rewrite length_map.
    now apply select_candidates_length. }
  assert (Hfilt : (length (sma10_filter mx pool) <= length pool)%nat).
  { destruct mx; simpl; [apply filter_length_le|lia]. }
  assert (Hselle : (length (scan_selection sort_values download stocks n mx)
                    <= length (sma10_filter mx pool))%nat).
  { rewrite scan_selection_pool. apply head_length_le. }
  assert (Hpos : (1 <= length (scan_selection sort_values download stocks n mx))%nat).
  { destruct (scan_selection sort_values download stocks n mx); [congruence|simpl; lia]. }
  rewrite Hts, Haq, Hfo, Hsel, Hfs, Hres, length_map, Hlen.
  repeat split; try lia.
  - destruct mx; lia.
  - intro Hn. rewrite scan_selection_pool. now apply head_length_nonneg.
  - intros ->. reflexivity.
Qed.

Lemma summary_accounting_witness :
  total_scanned scan_example_summary = length [example_stock "A" (5 # 100)] /\
  (after_quality_filter scan_example_summary + filtered_out scan_example_summary
   = total_scanned scan_example_summary)%nat /\
  after_quality_filter scan_example_summary
  = length (scan_survivors [example_stock "A" (5 # 100)]) /\
  (selected scan_example_summary + filtered_by_sma10 scan_example_summary
   <= after_quality_filter scan_example_summary)%nat /\
  selected scan_example_summary = length scan_example_results /\
  (1 <= selected scan_example_summary)%nat /\
  ((0 <= 8)%Z -> (Z.of_nat (selected scan_example_summary) <= 8)%Z) /\
  (@None Q = None -> filtered_by_sma10 scan_example_summary = 0%nat).
Proof.
  apply (summary_accounting sort_stable no_download
           [example_stock "A" (5 # 100)] 10000 8 None).
  - exact sort_stable_ok.
  - vm_compute. reflexivity.
Defined.

Lemma head_In {A} (n : Z) (l : list A) (x : A) : In x (head n l) -> In x l.
Proof.
  intro H. destruct (head_prefix n l) as [rest E]. rewrite E.
  apply in_or_app. now left.
Qed.

Lemma sma10_filter_In (mx : option Q) (pool : list Candidate) (c : Candidate) :
  In c (sma10_filter mx pool) ->
  In c pool /\
  forall t, mx = Some t ->
            match SMA10_Distance c with Some d => d <= t | None => True end.
Proof.
  destruct mx as [m|]; simpl; intro H.
  - apply filter_In in H. destruct H as [H1 H2]. split; [exact H1|].
    intros t Et. injection Et as <-. unfold within_trend in H2.
    destruct (SMA10_Distance c); [now apply Qle_bool_iff|exact I].
  - split; [exact H|]. discriminate.
Qed.

Lemma scan_pool_In
  (sort_values : list Scored -> list Scored) (download : list string -> Download)
  (stocks : list Stock) (n : Z) (mx : option Q) (c : Candidate) :
  sort_values_ok sort_values ->
  In c (scan_pool sort_values download stocks n mx) ->
  In (scored c) (scan_survivors stocks).
Proof.
  intros Hsort H. unfold scan_pool, add_sma10 in H. cbv zeta in H.
  apply in_map_iff in H. destruct H as [s [<- Hs]]. simpl.
  unfold select_candidates in Hs. apply head_In in Hs.
  destruct (Hsort (scan_survivors stocks)) as [Hp _].
  apply Permutation_sym in Hp. exact (Permutation_in _ Hp Hs).
Qed.

Lemma scan_survivors_In (stocks : list Stock) (s : Scored) :
  In s (scan_survivors stocks) ->
  In (scored_stock s) stocks /\
  exists m, Min_Percentile s = Some m /\ 25 <= m.
Proof.
  unfold scan_survivors, quality_filter. intro H. apply filter_In in H.
  destruct H as [Hin Hge]. split.
  - unfold calculate_hqm_score in Hin. apply in_map_iff in Hin.
    destruct Hin as [r [<- Hr]]. unfold scored_stock. simpl.
    exact (proj1 (pct_col_spec TF_1M stocks r Hr)).
  - unfold ge_threshold in Hge. destruct (Min_Percentile s) as [m|]; [|discriminate].
    exists m. split; [reflexivity|]. now apply Qle_bool_iff.
Qed.

Lemma shares_for_nonneg (a price : Q) : 0 <= a -> (0 <= shares_for a price)%Z.
Proof.
  intro Ha. rewrite shares_for_spec. destruct (Qlt_le_dec 0 price) as [Hp|_]; [|lia].
  assert (Hq : 0 <= a / price).
  { apply Qle_shift_div_l; [exact Hp|]. rewrite Qmult_0_l. exact Ha. }
  exact (Qfloor_resp_le _ _ Hq).
Qed.

(** X16. Every row of a result is a stock of the table (same ticker,
    exchange and price) that passed the quality filter with
    Min_Percentile >= 25; when a threshold is given its distance is missing
    or at most the threshold; and for a portfolio size that is not negative
    its share count is not negative. *)
Theorem result_rows_qualified
  (sort_values : list Scored -> list Scored) (download : list string -> Download)
  (stocks : list Stock) (P : Q) (n : Z) (mx : option Q)
  (results : list (Sized Candidate)) (summary : Summary) (r : Sized Candidate)
  (Hsort : sort_values_ok sort_values)
  (Hrun : run_hqm_scan_from_db sort_values download stocks P n mx
          = Success results summary)
  (Hr : In r results) :
  (exists s, In s stocks /\
             Ticker (scored_stock (scored (row r))) = Ticker s /\
             Exchange (scored_stock (scored (row r))) = Exchange s /\
             Price (scored_stock (scored (row r))) = Price s) /\
  (exists m, Min_Percentile (scored (row r)) = Some m /\ 25 <= m) /\
  (forall t, mx = Some t ->
             match SMA10_Distance (row r) with Some d => d <= t | None => True end) /\
  (0 <= P -> (0 <= Shares r)%Z).
Proof.
  destruct (scan_success_inv _ _ _ _ _ _ _ _ Hrun)
    as (sized & Hne & Hsize & Hres & _).
  rewrite Hres in Hr. apply in_map_iff in Hr. destruct Hr as [p [<- Hp]].
  destruct (size_rows_Some _ _ _ _ Hsize) as (Hsne & Hrows & _).
  assert (Hsel : In (row p) (scan_selection sort_values download stocks n mx)).
  { rewrite <- Hrows. now apply in_map. }
  rewrite scan_selection_pool in Hsel. apply head_In in Hsel.
  apply sma10_filter_In in Hsel. destruct Hsel as [Hpool Htrend].
  apply (scan_pool_In _ _ _ _ _ _ Hsort) in Hpool.
  apply scan_survivors_In in Hpool. destruct Hpool as [Hstock Hmin].
  split; [|split; [|split]].
  - exists (scored_stock (scored (row p))). split; [exact Hstock|].
    repeat split; reflexivity.
  - exact Hmin.
  - exact Htrend.
  - intro HP. simpl.
    unfold size_rows in Hsize.
    destruct (scan_selection sort_values download stocks n mx) as [|c0 sel] eqn:Es;
      [discriminate|].
    injection Hsize as Hs. rewrite <- Hs in Hp.
    change (In p (map (size_row candidate_price (P / Qlen (c0 :: sel))
                         (Qlen (c0 :: sel))) (c0 :: sel))) in Hp.
    apply in_map_iff in Hp. destruct Hp as [c [<- _]]. simpl.
    apply shares_for_nonneg.
    apply Qle_shift_div_l; [apply Qlen_pos; discriminate|].
    rewrite Qmult_0_l. exact HP.
Qed.

Lemma result_rows_qualified_witness :
  (exists s, In s [example_stock "A" (5 # 100)] /\
             Ticker (scored_stock (scored (row (nth 0 scan_example_results
                (mkSized default_candidate 0 0 0%Z 0))))) = Ticker s /\
             Exchange (scored_stock (scored (row (nth 0 scan_example_results
                (mkSized default_candidate 0 0 0%Z 0))))) = Exchange s /\
             Price (scored_stock (scored (row (nth 0 scan_example_results
                (mkSized default_candidate 0 0 0%Z 0))))) = Price s) /\
  (exists m, Min_Percentile (scored (row (nth 0 scan_example_results
                (mkSized default_candidate 0 0 0%Z 0)))) = Some m /\ 25 <= m) /\
  (forall t, @None Q = Some t ->
             match SMA10_Distance (row (nth 0 scan_example_results
                (mkSized default_candidate 0 0 0%Z 0))) with
             | Some d => d <= t | None => True end) /\
  (0 <= 10000 -> (0 <= Shares (nth 0 scan_example_results
                (mkSized default_candidate 0 0 0%Z 0)))%Z).
Proof.
  apply (result_rows_qualified sort_stable no_download
           [example_stock "A" (5 # 100)] 10000 8 None
           scan_example_results scan_example_summary).
  - exact sort_stable_ok.
  - vm_compute. reflexivity.
  - left. reflexivity.
Defined.

(** ** Order of the output *)

Lemma rint_compat (q1 q2 : Q) : q1 == q2 -> rint q1 = rint q2.
Proof.
  intro E. unfold rint.
  assert (Ef : Qfloor q1 = Qfloor q2) by (now rewrite E).
  rewrite Ef.
  assert (Ec : Qcompare (q1 - inject_Z (Qfloor q2)) (1 # 2)
               = Qcompare (q2 - inject_Z (Qfloor q2)) (1 # 2)) by (now rewrite E).
  now rewrite Ec.
Qed.

Lemma rint_mono (q1 q2 : Q) : q1 <= q2 -> (rint q1 <= rint q2)%Z.
Proof.
  intro Hle. destruct (Z_le_gt_dec (rint q1) (rint q2)) as [H|H]; [exact H|].
  exfalso.
  pose proof (rint_error q1) as E1. pose proof (rint_error q2) as E2.
  apply Qabs_Qle_condition in E1. apply Qabs_Qle_condition in E2.
  assert (Hz : inject_Z (rint q2) + 1 <= inject_Z (rint q1)).
  { change 1 with (inject_Z 1). rewrite <- inject_Z_plus, <- Zle_Qle. lia. }
  assert (Heq : q1 == q2) by (apply Qle_antisym; lra).
  apply rint_compat in Heq. lia.
Qed.

Lemma round_nd_mono (n : nat) (q1 q2 : Q) :
  q1 <= q2 -> round_nd n q1 <= round_nd n q2.
Proof.
  intro Hle. unfold round_nd. pose proof (pow10_pos n) as Hp.
  apply Qmult_le_compat_r.
  - rewrite <- Zle_Qle. apply rint_mono.
    apply Qmult_le_compat_r; [exact Hle|now apply Qlt_le_weak].
  - apply Qlt_le_weak, Qinv_lt_0_compat, Hp.
Qed.

Lemma desc_round (n : nat) (a b : option Q) :
  desc a b -> desc (round_opt n a) (round_opt n b).
Proof.
  destruct a, b; simpl; auto. apply round_nd_mono.
Qed.

Lemma Sorted_map {A B} (R : A -> A -> Prop) (R' : B -> B -> Prop) (f : A -> B)
  (l : list A) :
  (forall a b, R a b -> R' (f a) (f b)) -> Sorted R l -> Sorted R' (map f l).
Proof.
  intros Hf. induction 1 as [|a l Hs IH Hhd]; simpl; constructor.
  - exact IH.
  - destruct Hhd; simpl; constructor. auto.
Qed.

(** X17. The rows of a result are in non-increasing order of the HQM_Score
    they display, that is of the score rounded to one place. *)
Theorem results_in_displayed_order
  (sort_values : list Scored -> list Scored) (download : list string -> Download)
  (stocks : list Stock) (P : Q) (n : Z) (mx : option Q)
  (results : list (Sized Candidate)) (summary : Summary)
  (Hsort : sort_values_ok sort_values)
  (Hrun : run_hqm_scan_from_db sort_values download stocks P n mx
          = Success results summary) :
  Sorted cand_desc (map row results).
Proof.
  destruct (scan_success_inv _ _ _ _ _ _ _ _ Hrun)
    as (sized & _ & Hsize & Hres & _).
  destruct (size_rows_Some _ _ _ _ Hsize) as (_ & Hrows & _).
  pose proof (scan_selection_sorted sort_values download stocks n mx Hsort) as Hs.
  rewrite <- Hrows in Hs. rewrite Hres.
  assert (E : map row (map round_values sized)
              = map (fun c => {| scored := round_scored 4 1 (scored c);
                                 SMA10_Distance := SMA10_Distance c |})
                    (map row sized)).
  { rewrite !map_map. reflexivity. }
  rewrite E.
  apply (Sorted_map cand_desc cand_desc); [|exact Hs].
  intros a b Hab. unfold cand_desc in *. simpl. now apply desc_round.
Qed.

Lemma results_in_displayed_order_witness :
  Sorted cand_desc (map row scan_ranked_results).
Proof.
  apply (results_in_displayed_order sort_stable no_download
           example_df 10000 8 None
           scan_ranked_results scan_ranked_summary).
  - exact sort_stable_ok.
  - vm_compute. reflexivity.
Defined.

(** The result of that witness has four rows, E, A, C, B. *)
Lemma scan_ranked_results_rows :
  map (fun p => Ticker (scored_stock (scored (row p)))) scan_ranked_results
  = ["E"; "A"; "C"; "B"]%string.
Proof. vm_compute. reflexivity. Qed.

(** ** The scan against the command-line selection *)

Lemma map_scored_add_sma10 (d : dict) (df : list Scored) :
  map scored (add_sma10 d df) = df.
Proof.
  unfold add_sma10. rewrite map_map. simpl. apply map_id.
Qed.

Lemma head_map {A B} (f : A -> B) (n : Z) (l : list A) :
  map f (head n l) = head n (map f l).
Proof.
  unfold head. rewrite length_map. destruct (0 <=? n)%Z; symmetry; apply firstn_map.
Qed.

Lemma candidates_count_covers (mx : option Q) (n : Z) (len : nat) :
  (0 <= n)%Z -> (Z.min n (Z.of_nat len) <= candidates_count mx n len)%Z.
Proof.
  intro Hn. destruct (candidates_count_floor mx n len Hn) as [E _]. rewrite E.
  assert (Hq : inject_Z n <= inject_Z n * candidates_multiplier mx).
  { assert (H0 : 0 <= inject_Z n).
    { change 0 with (inject_Z 0). now rewrite <- Zle_Qle. }
    destruct mx; simpl; lra. }
  pose proof (Qfloor_resp_le _ _ Hq) as Hf. rewrite Qfloor_Z in Hf. lia.
Qed.

(** Cutting the pool and then the selection is cutting once. *)
Lemma head_select_candidates
  (sort_values : list Scored -> list Scored) (mx : option Q) (n : Z)
  (df : list Scored) :
  (0 <= n)%Z ->
  head n (select_candidates sort_values mx n df) = head n (sort_values df).
Proof.
  intro Hn. unfold select_candidates.
  set (l := sort_values df).
  pose proof (candidates_count_covers mx n (length l) Hn) as Hc.
  destruct (candidates_count_floor mx n (length l) Hn) as [_ Hr].
  set (k := candidates_count mx n (length l)) in *.
  rewrite !head_nonneg by lia. rewrite firstn_firstn.
  destruct (Z_le_gt_dec n (Z.of_nat (length l))) as [H|H].
  - f_equal. lia.
  - rewrite !firstn_all2 by lia. reflexivity.
Qed.

Lemma unusable_filter_id (download : list string -> Download)
  (tickers : list string) (mx : option Q) (df : list Scored) :
  (forall b, unusable (download b)) ->
  sma10_filter mx (add_sma10 (get_sma10_distance download tickers) df)
  = add_sma10 (get_sma10_distance download tickers) df.
Proof.
  intro Hfail. destruct mx as [m|]; [|reflexivity].
  unfold get_sma10_distance. rewrite (fold_unusable download _ Hfail).
  simpl. apply filter_all. intros c Hc. unfold add_sma10 in Hc.
  apply in_map_iff in Hc. destruct Hc as [s [<- _]]. reflexivity.
Qed.

(** X18. With num_positions >= 0, a scan whose trend filter removes nobody
    (none was asked for, or the price service gave nothing usable) selects
    exactly the rows [filter_quality_momentum] of the command-line pipeline
    selects at threshold 25: the first num_positions survivors in sorted
    order; the larger candidate pool changes nothing. *)
Theorem scan_selection_matches_cli
  (sort_values : list Scored -> list Scored) (download : list string -> Download)
  (stocks : list Stock) (n : Z) (mx : option Q)
  (Hn : (0 <= n)%Z)
  (Hquiet : mx = None \/ forall b, unusable (download b)) :
  map scored (scan_selection sort_values download stocks n mx)
  = filter_quality_momentum sort_values
      (calculate_hqm_score (calculate_percentile_scores stocks)) n 25.
Proof.
  rewrite scan_selection_pool.
  assert (E : sma10_filter mx (scan_pool sort_values download stocks n mx)
              = scan_pool sort_values download stocks n mx).
  { destruct Hquiet as [->|Hfail]; [reflexivity|].
    unfold scan_pool. cbv zeta. now apply unusable_filter_id. }
  rewrite E, head_map. unfold scan_pool. cbv zeta.
  rewrite map_scored_add_sma10.
  unfold filter_quality_momentum, scan_survivors.
  now apply head_select_candidates.
Qed.

Lemma scan_selection_matches_cli_witness :
  map scored (scan_selection sort_stable no_download example_df 2 (Some 5))
  = filter_quality_momentum sort_stable
      (calculate_hqm_score (calculate_percentile_scores example_df)) 2 25.
Proof.
  apply (scan_selection_matches_cli sort_stable no_download example_df 2 (Some 5)).
  - lia.
  - right. intro b. exact I.
Defined.

(** ** When the scan fails *)

Lemma unfiltered_selection
  (sort_values : list Scored -> list Scored) (download : list string -> Download)
  (stocks : list Stock) (n : Z) :
  (0 <= n)%Z ->
  map scored (scan_selection sort_values download stocks n None)
  = head n (sort_values (scan_survivors stocks)).
Proof.
  intro Hn. rewrite scan_selection_pool. simpl sma10_filter.
  rewrite head_map. unfold scan_pool. cbv zeta.
  rewrite map_scored_add_sma10. now apply head_select_candidates.
Qed.

Lemma map_nil_iff {A B} (f : A -> B) (l : list A) : map f l = [] <-> l = [].
Proof. destruct l; simpl; split; congruence. Qed.

(** X19. A scan ends in exactly one of three ways: the no-data failure,
    for an empty table and only then; the division by zero, when the table
    has rows and the selection is empty; a result otherwise.  Without a
    trend threshold and with num_positions >= 1 the division by zero happens
    exactly when the table has rows and none passes the quality filter. *)
Theorem scan_outcome
  (sort_values : list Scored -> list Scored) (download : list string -> Download)
  (stocks : list Stock) (P : Q) (n : Z) (mx : option Q) :
  let run := run_hqm_scan_from_db sort_values download stocks P n mx in
  let selection := scan_selection sort_values download stocks n mx in
  (run = NoData <-> stocks = []) /\
  (run = ZeroDivisionError <-> stocks <> [] /\ selection = []) /\
  ((exists results summary, run = Success results summary)
   <-> stocks <> [] /\ selection <> []) /\
  (sort_values_ok sort_values -> (1 <= n)%Z -> mx = None ->
   (run = ZeroDivisionError <-> stocks <> [] /\ scan_survivors stocks = [])).
Proof.
  cbv zeta.
  assert (Hcases :
    match stocks with
    | [] => run_hqm_scan_from_db sort_values download stocks P n mx = NoData
    | _ :: _ =>
        match scan_selection sort_values download stocks n mx with
        | [] => run_hqm_scan_from_db sort_values download stocks P n mx
                = ZeroDivisionError
        | _ :: _ => exists results summary,
                    run_hqm_scan_from_db sort_values download stocks P n mx
                    = Success results summary
        end
    end).
  { destruct stocks as [|s stocks]; [reflexivity|].
    destruct (scan_selection sort_values download (s :: stocks) n mx) as [|c sel] eqn:E.
    - apply run_hqm_scan_from_db_selection; [discriminate|exact E].
    - unfold run_hqm_scan_from_db. unfold scan_selection in E. cbv zeta in *.
      rewrite E. cbn [size_rows]. eexists. eexists. reflexivity. }
  assert (Hzero : run_hqm_scan_from_db sort_values download stocks P n mx
                  = ZeroDivisionError
                  <-> stocks <> [] /\
                      scan_selection sort_values download stocks n mx = []).
  { destruct stocks as [|s stocks].
    - rewrite Hcases. split; [discriminate|]. intros [H _]. congruence.
    - destruct (scan_selection sort_values download (s :: stocks) n mx) as [|c sel].
      + rewrite Hcases. split; [|reflexivity]. intros _. split; [discriminate|reflexivity].
      + destruct Hcases as (r & sm & ->). split; [discriminate|].
        intros [_ H]. discriminate. }
  split; [|split; [exact Hzero|split]].
  - destruct stocks as [|s stocks].
    + rewrite Hcases. tauto.
    + split; [|discriminate].
      destruct (scan_selection sort_values download (s :: stocks) n mx).
      * rewrite Hcases. discriminate.
      * destruct Hcases as (r & sm & ->). discriminate.
  - destruct stocks as [|s stocks].
    + rewrite Hcases. split; [intros (r & sm & H); discriminate|].
      intros [H _]. congruence.
    + destruct (scan_selection sort_values download (s :: stocks) n mx).
      * rewrite Hcases. split; [intros (r & sm & H); discriminate|].
        intros [_ H]. congruence.
      * split; [intros _; split; discriminate|]. intros _. exact Hcases.
  - intros Hsort Hn ->. rewrite Hzero.
    assert (E : scan_selection sort_values download stocks n None = []
                <-> scan_survivors stocks = []).
    { rewrite <- (map_nil_iff scored), unfiltered_selection by lia.
      rewrite head_nonneg by lia.
      destruct (Hsort (scan_survivors stocks)) as [Hp _].
      destruct (Z.to_nat n) as [|k] eqn:Ek; [lia|].
      split; intro H.
      - destruct (sort_values (scan_survivors stocks)) as [|x l]; [|discriminate].
        apply Permutation_sym in Hp. exact (Permutation_nil Hp).
      - rewrite H in *. apply Permutation_nil in Hp. rewrite Hp. reflexivity. }
    rewrite E. tauto.
Qed.

Lemma scan_outcome_witness :
  run_hqm_scan_from_db sort_stable no_download low_df 10000 8 None = ZeroDivisionError
  <-> low_df <> [] /\ scan_survivors low_df = [].
Proof.
  apply (scan_outcome sort_stable no_download low_df 10000 8 None).
  - exact sort_stable_ok.
  - lia.
  - reflexivity.
Defined.

(** ** Application state *)

Lemma update_state_keeps_results
  (s : option Status) (p : option Z) (m : option string) (st : AppState) :
  results (update_state s p m None None st) = results st /\
  summary (update_state s p m None None st) = summary st.
Proof. split; reflexivity. Qed.

Lemma start_scan_request_results (count : nat) (st : AppState) (P : Q) (n : Z) :
  results (snd (start_scan_request count st P n)) = results st /\
  summary (snd (start_scan_request count st P n)) = summary st.
Proof.
  unfold start_scan_request.
  destruct (fst (start_scan count (status st) P n)); split; reflexivity.
Qed.

(** X20. The results of an earlier scan are never cleared: while a later
    scan runs, and after it has failed, [get_results] still returns the
    earlier rows and summary, although the status says scanning or error. *)
Theorem earlier_results_survive_a_failed_scan
  (st : AppState) (r : list (Sized Candidate)) (count : nat) (P : Q) (n : Z)
  (result : Outcome) (str_e : string)
  (Hold : results st = Some r)
  (Hfail : forall rs sm, result <> Success rs sm) :
  let st1 := snd (start_scan_request count st P n) in
  let st2 := scan_thread st1 result str_e in
  get_results st1 = Some (r, summary st) /\
  get_results st2 = Some (r, summary st) /\
  status st2 = error.
Proof.
  cbv zeta.
  destruct (start_scan_request_results count st P n) as [Hr Hs].
  set (st1 := snd (start_scan_request count st P n)) in *.
  split; [|split].
  - unfold get_results. now rewrite Hr, Hs, Hold.
  - unfold get_results, scan_thread.
    destruct result as [| |rs sm]; [| |exfalso; exact (Hfail rs sm eq_refl)];
      simpl; now rewrite Hr, Hs, Hold.
  - unfold scan_thread.
    destruct result as [| |rs sm]; [| |exfalso; exact (Hfail rs sm eq_refl)];
      reflexivity.
Qed.

Lemma earlier_results_survive_a_failed_scan_witness :
  let st := update_state None None None (Some scan_example_results) None initial_state in
  let st1 := snd (start_scan_request 3 st 10000 8) in
  let st2 := scan_thread st1 ZeroDivisionError "float division by zero" in
  get_results st1 = Some (scan_example_results, summary st) /\
  get_results st2 = Some (scan_example_results, summary st) /\
  status st2 = error.
Proof.
  apply (earlier_results_survive_a_failed_scan
           (update_state None None None (Some scan_example_results) None initial_state)
           scan_example_results 3 10000 8 ZeroDivisionError).
  - reflexivity.
  - discriminate.
Defined.

(** X21. The scan thread always leaves a status from which a new operation
    can start: completed, with the new rows and summary readable through
    [get_results], exactly when the scan returned a result, and error
    otherwise; it never leaves the status scanning. *)
Theorem scan_thread_final_state (st : AppState) (result : Outcome) (str_e : string) :
  busy (status (scan_thread st result str_e)) = false /\
  (status (scan_thread st result str_e) = completed
   <-> exists rs sm, result = Success rs sm) /\
  (status (scan_thread st result str_e) = error
   <-> forall rs sm, result <> Success rs sm) /\
  (forall rs sm, result = Success rs sm ->
     get_results (scan_thread st result str_e) = Some (rs, Some sm) /\
     progress (scan_thread st result str_e) = 100%Z).
Proof.
  split; [destruct result; reflexivity|].
  split; [|split].
  - destruct result as [| |rs sm]; simpl; split; intro H.
    + discriminate.
    + destruct H as (rs & sm & H). discriminate.
    + discriminate.
    + destruct H as (rs & sm & H). discriminate.
    + eauto.
    + reflexivity.
  - destruct result as [| |rs sm]; simpl; split; intro H.
    + discriminate.
    + reflexivity.
    + discriminate.
    + reflexivity.
    + discriminate.
    + exfalso. exact (H rs sm eq_refl).
  - intros rs sm ->. split; reflexivity.
Qed.

(** X22. While a refresh or a scan is running every scan request on a
    non-empty table and every refresh request is refused and changes
    nothing; and an accepted scan or refresh request puts the application
    into that state. *)
Theorem one_operation_at_a_time (st : AppState) (count : nat) (P : Q) (n : Z) :
  (busy (status st) = true -> count <> 0%nat ->
   start_scan_request count st P n = (OperationInProgress, st)) /\
  (busy (status st) = true -> start_refresh st = (RefreshRefused, st)) /\
  (fst (start_scan_request count st P n) = ScanStarted ->
   busy (status st) = false /\
   busy (status (snd (start_scan_request count st P n))) = true) /\
  (fst (start_refresh st) = RefreshStarted ->
   busy (status st) = false /\
   busy (status (snd (start_refresh st))) = true).
Proof.
  split; [|split; [|split]].
  - intros Hb Hc. unfold start_scan_request, start_scan.
    apply Nat.eqb_neq in Hc. rewrite Hc, Hb. reflexivity.
  - intro Hb. unfold start_refresh. now rewrite Hb.
  - unfold start_scan_request, start_scan.
    destruct (Nat.eqb count 0); [simpl; discriminate|].
    destruct (busy (status st)); [simpl; discriminate|].
    destruct (negb (Qle_bool 1000 P)); [simpl; discriminate|].
    destruct ((n <? 1)%Z || (50 <? n)%Z); [simpl; discriminate|].
    simpl. auto.
  - unfold start_refresh. destruct (busy (status st)); simpl; [discriminate|auto].
Qed.

Lemma one_operation_at_a_time_witness :
  start_scan_request 3 (snd (start_refresh initial_state)) 10000 8
  = (OperationInProgress, snd (start_refresh initial_state)) /\
  start_refresh (snd (start_scan_request 3 initial_state 10000 8))
  = (RefreshRefused, snd (start_scan_request 3 initial_state 10000 8)) /\
  busy (status (snd (start_scan_request 3 initial_state 10000 8))) = true /\
  busy (status (snd (start_refresh initial_state))) = true.
Proof.
  destruct (one_operation_at_a_time (snd (start_refresh initial_state)) 3 10000 8)
    as (H1 & _ & _ & _).
  destruct (one_operation_at_a_time
              (snd (start_scan_request 3 initial_state 10000 8)) 3 10000 8)
    as (_ & H2 & _ & _).
  destruct (one_operation_at_a_time initial_state 3 10000 8) as (_ & _ & H3 & H4).
  split; [|split; [|split]].
  - apply H1; [reflexivity|discriminate].
  - apply H2. reflexivity.
  - apply H3. reflexivity.
  - apply H4. reflexivity.
Defined.

(** ** Market-cap display *)

Lemma rint_nearest (q : Q) (z : Z) :
  Qabs (q - inject_Z z) < 1 # 2 -> rint q = z.
Proof.
  intro H. pose proof (rint_error q) as E.
  apply Qabs_Qle_condition in E.
  apply Qabs_Qlt_condition in H.
  destruct E as [E1 E2]. destruct H as [H1 H2].
  assert (L : inject_Z (rint q) < inject_Z z + 1) by lra.
  assert (U : inject_Z z < inject_Z (rint q) + 1) by lra.
  change 1 with (inject_Z 1) in L, U.
  rewrite <- inject_Z_plus, <- Zlt_Qlt in L, U. lia.
Qed.

(** X23. A missing market cap is shown as "-".  The unit is chosen on the
    unrounded value and the figure is rounded afterwards: every cap above
    999.95 billion and below one trillion is shown as "1000.0B", and every
    cap from one trillion up to, not including, 1.05 trillion as "1.0T". *)
Theorem format_market_cap_at_the_trillion (value : Q) :
  format_market_cap None = "-"%string /\
  (999950000000 < value -> value < 1000000000000 ->
   format_market_cap (Some value) = "1000.0B"%string) /\
  (1000000000000 <= value -> value < 1050000000000 ->
   format_market_cap (Some value) = "1.0T"%string).
Proof.
  split; [reflexivity|]. split.
  - intros Hlo Hhi. unfold format_market_cap. cbv zeta.
    set (vb := value / 1000000000).
    assert (Hvb : (99995 # 100) < vb /\ vb < 1000).
    { unfold vb. split.
      - apply Qlt_shift_div_l; [reflexivity|]. lra.
      - apply Qlt_shift_div_r; [reflexivity|]. lra. }
    destruct Hvb as [V1 V2].
    assert (Eb : Qle_bool 1000 vb = false) by (now apply Qle_bool_false_lt).
    rewrite Eb. unfold format_1f. cbv zeta.
    assert (E0 : Qle_bool 0 vb = true) by (apply Qle_bool_iff; lra).
    rewrite E0.
    assert (Er : rint (Qabs vb * 10) = 10000%Z).
    { assert (Ea : Qabs vb * 10 == vb * 10) by (rewrite Qabs_pos; [reflexivity|lra]).
      rewrite (rint_compat _ _ Ea).
      apply rint_nearest. apply Qabs_Qlt_condition.
      change (inject_Z 10000) with 10000. split; lra. }
    rewrite Er. reflexivity.
  - intros Hlo Hhi. unfold format_market_cap. cbv zeta.
    set (vb := value / 1000000000).
    assert (Hvb : 1000 <= vb /\ vb < 1050).
    { unfold vb. split.
      - apply Qle_shift_div_l; [reflexivity|]. lra.
      - apply Qlt_shift_div_r; [reflexivity|]. lra. }
    destruct Hvb as [V1 V2].
    assert (Eb : Qle_bool 1000 vb = true) by (now apply Qle_bool_iff).
    rewrite Eb. unfold format_1f. cbv zeta.
    set (vt := vb / 1000).
    assert (Hvt : 1 <= vt /\ vt < (105 # 100)).
    { unfold vt. split.
      - apply Qle_shift_div_l; [reflexivity|]. lra.
      - apply Qlt_shift_div_r; [reflexivity|]. lra. }
    destruct Hvt as [T1 T2].
    assert (E0 : Qle_bool 0 vt = true) by (apply Qle_bool_iff; lra).
    rewrite E0.
    assert (Er : rint (Qabs vt * 10) = 10%Z).
    { assert (Ea : Qabs vt * 10 == vt * 10) by (rewrite Qabs_pos; [reflexivity|lra]).
      rewrite (rint_compat _ _ Ea).
      apply rint_nearest. apply Qabs_Qlt_condition.
      change (inject_Z 10) with 10. split; lra. }
    rewrite Er. reflexivity.
Qed.

Lemma format_market_cap_at_the_trillion_witness :
  format_market_cap (Some 999960000000) = "1000.0B"%string /\
  format_market_cap (Some 1040000000000) = "1.0T"%string.
Proof.
  split.
  - apply (proj1 (proj2 (format_market_cap_at_the_trillion 999960000000)));
      reflexivity.
  - apply (proj2 (proj2 (format_market_cap_at_the_trillion 1040000000000)));
      [discriminate|reflexivity].
Defined.

(** ** The handler and the scan together *)

(** X24. A scan that the handler started on the stored table runs with
    portfolio_size >= 1000 and 1 <= num_positions <= 50 on a table that is
    not empty: it never ends in the no-data failure, and a result has
    between 1 and num_positions rows, so at most 50. *)
Theorem started_scan_is_validated
  (sort_values : list Scored -> list Scored) (download : list string -> Download)
  (table : list Stock) (st : AppState) (P : Q) (n : Z) (mx : option Q)
  (Hstart : fst (start_scan_request (get_stock_count table) st P n) = ScanStarted) :
  1000 <= P /\ (1 <= n <= 50)%Z /\
  run_hqm_scan_from_db sort_values download table P n mx <> NoData /\
  forall results summary,
    run_hqm_scan_from_db sort_values download table P n mx = Success results summary ->
    (1 <= length results <= 50)%nat /\ (Z.of_nat (length results) <= n)%Z.
Proof.
  unfold start_scan_request, start_scan, get_stock_count in Hstart.
  destruct (Nat.eqb (length table) 0) eqn:Ec; [simpl in Hstart; discriminate|].
  destruct (busy (status st)); [simpl in Hstart; discriminate|].
  destruct (Qle_bool 1000 P) eqn:EP; [|simpl in Hstart; discriminate].
  destruct ((n <? 1)%Z || (50 <? n)%Z) eqn:En; [simpl in Hstart; discriminate|].
  apply Qle_bool_iff in EP. apply orb_false_iff in En. destruct En as [E1 E2].
  apply Z.ltb_ge in E1. apply Z.ltb_ge in E2. apply Nat.eqb_neq in Ec.
  split; [exact EP|]. split; [lia|]. split.
  - destruct table as [|s0 table]; [simpl in Ec; congruence|].
    intro H. unfold run_hqm_scan_from_db in H. cbv zeta in H.
    match type of H with
    | match ?e with _ => _ end = _ => destruct e
    end; discriminate.
  - intros rs sm Hrun.
    destruct (scan_success_inv _ _ _ _ _ _ _ _ Hrun) as (sized & _ & Hsize & Hres & _).
    destruct (size_rows_Some _ _ _ _ Hsize) as (Hsne & _ & Hlen).
    assert (Hle : (Z.of_nat (length rs) <= n)%Z).
    { rewrite Hres, length_map, Hlen, scan_selection_pool.
      apply head_length_nonneg. lia. }
    assert (Hpos : (1 <= length rs)%nat).
    { rewrite Hres, length_map, Hlen.
      destruct (scan_selection sort_values download table n mx); [congruence|simpl; lia]. }
    lia.
Qed.

Lemma started_scan_is_validated_witness :
  1000 <= 10000 /\ (1 <= 8 <= 50)%Z /\
  run_hqm_scan_from_db sort_stable no_download example_df 10000 8 None <> NoData /\
  forall results summary,
    run_hqm_scan_from_db sort_stable no_download example_df 10000 8 None
    = Success results summary ->
    (1 <= length results <= 50)%nat /\ (Z.of_nat (length results) <= 8)%Z.
Proof.
  apply (started_scan_is_validated sort_stable no_download example_df initial_state).
  reflexivity.
Defined.

(** ** Totals of the summary *)

(** X25. The two rounded totals of a summary add up to the portfolio size
    within one cent. *)
Theorem summary_totals_within_a_cent
  (sort_values : list Scored -> list Scored) (download : list string -> Download)
  (stocks : list Stock) (P : Q) (n : Z) (mx : option Q)
  (results : list (Sized Candidate)) (summary : Summary)
  (Hrun : run_hqm_scan_from_db sort_values download stocks P n mx
          = Success results summary) :
  Qabs (total_invested summary + cash_remaining summary - P) <= 1 # 100.
Proof.
  destruct stocks as [|s stocks]; [discriminate|].
  unfold run_hqm_scan_from_db in Hrun. cbv zeta in Hrun.
  match type of Hrun with
  | match ?e with _ => _ end = _ => destruct e as [sized|] eqn:E
  end; [|discriminate].
  injection Hrun as _ <-. cbn [total_invested cash_remaining].
  set (t := total_invested_of sized).
  pose proof (round_nd_error 2 t) as E1.
  pose proof (round_nd_error 2 (P - t)) as E2.
  change ((1 # 2) / pow10 2) with (1 # 200) in E1, E2.
  apply Qabs_Qle_condition in E1. apply Qabs_Qle_condition in E2.
  apply Qabs_Qle_condition. destruct E1, E2. split; lra.
Qed.

Lemma summary_totals_within_a_cent_witness :
  Qabs (total_invested scan_example_summary + cash_remaining scan_example_summary
        - 10000) <= 1 # 100.
Proof.
  apply (summary_totals_within_a_cent sort_stable no_download
           [example_stock "A" (5 # 100)] 10000 8 None scan_example_results).
  vm_compute. reflexivity.
Defined.

(** ** The command-line run *)

(** X26. With num_positions >= 1 the command-line run fails, by the
    division by zero of the sizing step, exactly when no stock passes the
    quality filter; otherwise it outputs min(num_positions, survivors) rows
    in non-increasing order of the displayed HQM_Score. *)
Theorem cli_run_outcome
  (sort_values : list Scored -> list Scored) (df : list Stock) (P : Q) (n : Z)
  (Hsort : sort_values_ok sort_values) (Hn : (1 <= n)%Z) :
  (run_hqm_strategy sort_values df P n = None <-> scan_survivors df = []) /\
  forall out, run_hqm_strategy sort_values df P n = Some out ->
    length out = Nat.min (Z.to_nat n) (length (scan_survivors df)) /\
    Sorted hqm_desc (map row out).
Proof.
  unfold run_hqm_strategy, calculate_position_sizes. cbv zeta.
  set (scoredf := calculate_hqm_score (calculate_percentile_scores df)).
  assert (Esel : filter_quality_momentum sort_values scoredf n 25
                 = firstn (Z.to_nat n) (sort_values (scan_survivors df))).
  { unfold filter_quality_momentum. rewrite head_nonneg by lia. reflexivity. }
  destruct (Hsort (scan_survivors df)) as [Hperm Hsorted].
  assert (Hlen : length (sort_values (scan_survivors df)) = length (scan_survivors df)).
  { symmetry. now apply Permutation_length. }
  assert (Hnil : filter_quality_momentum sort_values scoredf n 25 = []
                 <-> scan_survivors df = []).
  { rewrite Esel. destruct (Z.to_nat n) as [|k] eqn:Ek; [lia|]. split; intro H.
    - destruct (sort_values (scan_survivors df)); [|discriminate].
      apply Permutation_sym in Hperm. exact (Permutation_nil Hperm).
    - rewrite H in *. apply Permutation_nil in Hperm. now rewrite Hperm. }
  destruct (size_rows (fun s => Price (scored_stock s))
              (filter_quality_momentum sort_values scoredf n 25) P)
    as [sized|] eqn:Esz.
  - destruct (size_rows_Some _ _ _ _ Esz) as (Hne & Hrows & Hl).
    split.
    + split; [discriminate|]. intro H. apply Hnil in H. congruence.
    + intros out Hout. injection Hout as <-. split.
      * unfold prepare_output_dataframe. rewrite length_map, Hl, Esel, length_firstn.
        now rewrite Hlen.
      * unfold prepare_output_dataframe. rewrite map_map. simpl.
        rewrite <- (map_map row (round_scored 2 1)), Hrows.
        apply (Sorted_map hqm_desc hqm_desc).
        -- intros a b Hab. unfold hqm_desc in *. simpl. now apply desc_round.
        -- unfold filter_quality_momentum. apply head_sorted. apply Hsort.
  - split; [|discriminate].
    split; [|reflexivity]. intros _. apply Hnil.
    unfold size_rows in Esz.
    destruct (filter_quality_momentum sort_values scoredf n 25); [reflexivity|discriminate].
Qed.

Lemma cli_run_outcome_witness :
  (run_hqm_strategy sort_stable low_df 10000 8 = None <-> scan_survivors low_df = []) /\
  forall out, run_hqm_strategy sort_stable low_df 10000 8 = Some out ->
    length out = Nat.min (Z.to_nat 8) (length (scan_survivors low_df)) /\
    Sorted hqm_desc (map row out).
Proof.
  apply (cli_run_outcome sort_stable low_df 10000 8).
  - exact sort_stable_ok.
  - lia.
Defined.

Lemma collected_table_fully_scored_witness :
  exists p1 p2 p3 p4 h m,
    Pct_1M (ranked (nth 0 (calculate_hqm_score (calculate_percentile_scores
                             (combine_exchanges [example_df]))) default_scored)) = Some p1 /\
    Pct_3M (ranked (nth 0 (calculate_hqm_score (calculate_percentile_scores
                             (combine_exchanges [example_df]))) default_scored)) = Some p2 /\
    Pct_6M (ranked (nth 0 (calculate_hqm_score (calculate_percentile_scores
                             (combine_exchanges [example_df]))) default_scored)) = Some p3 /\
    Pct_1Y (ranked (nth 0 (calculate_hqm_score (calculate_percentile_scores
                             (combine_exchanges [example_df]))) default_scored)) = Some p4 /\
    HQM_Score (nth 0 (calculate_hqm_score (calculate_percentile_scores
                        (combine_exchanges [example_df]))) default_scored) = Some h /\
    Min_Percentile (nth 0 (calculate_hqm_score (calculate_percentile_scores
                             (combine_exchanges [example_df]))) default_scored) = Some m /\
    0 <= m /\ m <= h /\ h <= 100.
Proof.
  apply (collected_table_fully_scored [example_df]).
  left. reflexivity.
Defined.
